(** * Outlook calendar to Google Calendar importer: translation and import

    A shallow embedding of [ics_to_google_calendar.py]: the timezone
    normaliser [normalize_timezone], the event translator
    [_convert_vevent_to_google_event] and the submission loop
    [import_events] with [_get_existing_uids].

    Text is modelled as ASCII [string]; [str.lower], [str.upper] and
    [str.strip] are the ASCII restrictions of the Python methods.  A
    property read with [vevent.get(name)] is an [option]; Python's truth
    test on it ([if uid:]) is [truthy]: the property is there and its text
    is not empty. *)

From Stdlib Require Import ZArith Lia List String Ascii Bool.
From stdpp Require Import base decidable option list strings gmap.
Import ListNotations.

Local Open Scope string_scope.
Local Open Scope Z_scope.

(** ** Python string operations *)

Module PyStr.

Definition lower_ascii (c : ascii) : ascii :=
  let n := nat_of_ascii c in
  if ((65 <=? n) && (n <=? 90))%nat then ascii_of_nat (n + 32) else c.

Definition upper_ascii (c : ascii) : ascii :=
  let n := nat_of_ascii c in
  if ((97 <=? n) && (n <=? 122))%nat then ascii_of_nat (n - 32) else c.

Fixpoint lower (s : string) : string :=
  match s with
  | EmptyString => EmptyString
  | String c s' => String (lower_ascii c) (lower s')
  end.

Fixpoint upper (s : string) : string :=
  match s with
  | EmptyString => EmptyString
  | String c s' => String (upper_ascii c) (upper s')
  end.

(** [prefix p s]: [s.startswith(p)]. *)
Fixpoint startswith (p s : string) : bool :=
  match p, s with
  | EmptyString, _ => true
  | String _ _, EmptyString => false
  | String a p', String b s' => Ascii.eqb a b && startswith p' s'
  end.

(** [contains sub s]: Python's [sub in s]. *)
Fixpoint contains (sub s : string) : bool :=
  startswith sub s ||
  match s with
  | EmptyString => false
  | String _ s' => contains sub s'
  end.

(** [endswith p s]: [s.endswith(p)]. *)
Fixpoint endswith (p s : string) : bool :=
  String.eqb p s ||
  match s with
  | EmptyString => false
  | String _ s' => endswith p s'
  end.

(** The characters [str.strip()] removes, within ASCII. *)
Definition is_space (c : ascii) : bool :=
  let n := nat_of_ascii c in
  ((9 <=? n) && (n <=? 13) || (28 <=? n) && (n <=? 32))%nat.

Fixpoint lstrip (s : string) : string :=
  match s with
  | EmptyString => EmptyString
  | String c s' => if is_space c then lstrip s' else s
  end.

(** Right strip: drop the tail once everything after a position is blank. *)
Fixpoint rstrip (s : string) : string :=
  match s with
  | EmptyString => EmptyString
  | String c s' =>
      match rstrip s' with
      | EmptyString => if is_space c then EmptyString else String c EmptyString
      | r => String c r
      end
  end.

Definition strip (s : string) : string := rstrip (lstrip s).

(** [replace old new s]: [s.replace(old, new)] for a non-empty [old];
    the scan restarts after each replaced occurrence. *)
Fixpoint drop (n : nat) (s : string) : string :=
  match n, s with
  | O, _ => s
  | S _, EmptyString => EmptyString
  | S n', String _ s' => drop n' s'
  end.

Fixpoint replace_aux (fuel : nat) (old new s : string) : string :=
  match fuel with
  | O => s
  | S fuel' =>
      match s with
      | EmptyString => EmptyString
      | String c s' =>
          if startswith old s
          then new +:+ replace_aux fuel' old new (drop (String.length old) s)
          else String c (replace_aux fuel' old new s')
      end
  end.

Definition replace (old new s : string) : string :=
  replace_aux (S (String.length s)) old new s.

(** A Python string is true when it is not empty. *)
Definition nonempty (s : string) : bool :=
  match s with EmptyString => false | _ => true end.

End PyStr.

(** [if x:] on the result of [vevent.get(...)] holding text. *)
Definition truthy (o : option string) : bool :=
  match o with
  | Some s => PyStr.nonempty s
  | None => false
  end.

(** ** Timezone normalisation *)

(** [TIMEZONE_MAPPINGS], in the order of the dictionary literal (the order a
    Python dict iterates in). *)
Definition TIMEZONE_MAPPINGS : list (string * string) :=
  [ ("Eastern Standard Time", "America/New_York");
    ("Eastern Daylight Time", "America/New_York");
    ("Central Standard Time", "America/Chicago");
    ("Central Daylight Time", "America/Chicago");
    ("Mountain Standard Time", "America/Denver");
    ("Mountain Daylight Time", "America/Denver");
    ("US Mountain Standard Time", "America/Phoenix");
    ("Pacific Standard Time", "America/Los_Angeles");
    ("Pacific Daylight Time", "America/Los_Angeles");
    ("Alaska Standard Time", "America/Anchorage");
    ("Hawaiian Standard Time", "Pacific/Honolulu");
    ("GMT Standard Time", "Europe/London");
    ("W. Europe Standard Time", "Europe/Berlin");
    ("Romance Standard Time", "Europe/Paris");
    ("Central European Standard Time", "Europe/Budapest");
    ("E. Europe Standard Time", "Europe/Bucharest");
    ("FLE Standard Time", "Europe/Kiev");
    ("Russian Standard Time", "Europe/Moscow");
    ("Tokyo Standard Time", "Asia/Tokyo");
    ("China Standard Time", "Asia/Shanghai");
    ("Singapore Standard Time", "Asia/Singapore");
    ("India Standard Time", "Asia/Kolkata");
    ("Arabian Standard Time", "Asia/Dubai");
    ("Israel Standard Time", "Asia/Jerusalem");
    ("AUS Eastern Standard Time", "Australia/Sydney");
    ("E. Australia Standard Time", "Australia/Brisbane");
    ("AUS Central Standard Time", "Australia/Darwin");
    ("Cen. Australia Standard Time", "Australia/Adelaide");
    ("W. Australia Standard Time", "Australia/Perth");
    ("New Zealand Standard Time", "Pacific/Auckland");
    ("Venezuela Standard Time", "America/Caracas");
    ("SA Pacific Standard Time", "America/Bogota");
    ("Atlantic Standard Time", "America/Halifax");
    ("UTC", "UTC");
    ("Coordinated Universal Time", "UTC") ].

(** [tz_str in TIMEZONE_MAPPINGS] followed by [TIMEZONE_MAPPINGS[tz_str]]. *)
Fixpoint dict_get (table : list (string * string)) (k : string) : option string :=
  match table with
  | [] => None
  | (k', v) :: rest => if String.eqb k k' then Some v else dict_get rest k
  end.

(** The test of the partial-match loop for one table key. *)
Definition partial_match (tz_str windows_tz : string) : bool :=
  PyStr.contains (PyStr.lower windows_tz) (PyStr.lower tz_str)
  || PyStr.contains (PyStr.lower tz_str) (PyStr.lower windows_tz).

(** [for windows_tz, iana_tz in TIMEZONE_MAPPINGS.items(): ... return iana_tz],
    falling out of the loop to [return 'UTC']. *)
Fixpoint partial_scan (table : list (string * string)) (tz_str : string) : string :=
  match table with
  | [] => "UTC"
  | (windows_tz, iana_tz) :: rest =>
      if partial_match tz_str windows_tz then iana_tz
      else partial_scan rest tz_str
  end.

(** [pytz_known] is the timezone database: [HAS_PYTZ] and
    [pytz.timezone(tz_str)] not raising [UnknownTimeZoneError]; without
    pytz it is constantly false. *)
Definition normalize_timezone (pytz_known : string -> bool) (tz_str : string) : string :=
  if negb (PyStr.nonempty tz_str) then "UTC"
  else if pytz_known tz_str then tz_str
  else match dict_get TIMEZONE_MAPPINGS tz_str with
       | Some iana_tz => iana_tz
       | None => partial_scan TIMEZONE_MAPPINGS tz_str
       end.

(** ** Dates, times and durations

    A [date] is its proleptic Gregorian ordinal ([date.toordinal()]); a
    [datetime] is the number of seconds since the midnight that starts
    ordinal 0, with the text of its [tzinfo] when it has one; a
    [timedelta] is a number of seconds (iCalendar durations and times have
    no finer unit). *)

Definition MAXORDINAL : Z := 3652059.

Inductive DtValue :=
  | PyDate (ordinal : Z)
  | PyDateTime (secs : Z) (tzinfo : option string).

(** [calendar._ymd2ord]: the ordinal of a year, month and day. *)
Definition is_leap (y : Z) : bool :=
  (y mod 4 =? 0) && (negb (y mod 100 =? 0) || (y mod 400 =? 0)).

Definition days_before_year (y : Z) : Z :=
  let y1 := y - 1 in y1 * 365 + y1 / 4 - y1 / 100 + y1 / 400.

Definition days_in_month (y m : Z) : Z :=
  if m =? 2 then (if is_leap y then 29 else 28)
  else if (m =? 4) || (m =? 6) || (m =? 9) || (m =? 11) then 30 else 31.

Fixpoint days_before_month_aux (y : Z) (n : nat) : Z :=
  match n with
  | O => 0
  | S n' => days_before_month_aux y n' + days_in_month y (Z.of_nat n)
  end.

Definition days_before_month (y m : Z) : Z :=
  days_before_month_aux y (Z.to_nat (m - 1)).

Definition ymd2ord (y m d : Z) : Z :=
  days_before_year y + days_before_month y m + d.

(** The exceptions that leave the translator: an end out of the range of
    dates, [rrule.to_ical()] on a list, and [int(sequence)] on a text that
    is no number or on a list. *)
Inductive Exn := OverflowError | AttributeError | ValueError | TypeError.

(** [date + timedelta]: only the delta's whole days count. *)
Definition date_add (ordinal delta : Z) : Exn + Z :=
  let o := ordinal + delta / 86400 in
  if (0 <? o) && (o <=? MAXORDINAL) then inr o else inl OverflowError.

(** [datetime + timedelta]. *)
Definition datetime_add (secs delta : Z) : Exn + Z :=
  let t := secs + delta in
  let days := t / 86400 in
  if (0 <? days) && (days <=? MAXORDINAL) then inr t else inl OverflowError.

(** [start_dt + delta] for either kind of start. *)
Definition dt_add (v : DtValue) (delta : Z) : Exn + DtValue :=
  match v with
  | PyDate o =>
      match date_add o delta with inr o' => inr (PyDate o') | inl e => inl e end
  | PyDateTime s tz =>
      match datetime_add s delta with
      | inr s' => inr (PyDateTime s' tz)
      | inl e => inl e
      end
  end.

(** [isinstance(v, date) and not isinstance(v, datetime)]. *)
Definition is_plain_date (v : DtValue) : bool :=
  match v with PyDate _ => true | PyDateTime _ _ => false end.

(** [v.date()] of a datetime (a plain date is itself). *)
Definition date_of (v : DtValue) : Z :=
  match v with PyDate o => o | PyDateTime s _ => s / 86400 end.

(** ** The legacy record (a VEVENT component) *)

(** A date-time property ([vDDDTypes]): its value and its TZID parameter. *)
Record DtProp := mkDtProp { dt : DtValue; TZID : option string }.

(** An address property ([vCalAddress]) with the parameters the code reads. *)
Record AddrProp := mkAddrProp {
  addr : string;
  CN : option string;
  PARTSTAT : option string;
  ROLE : option string;
  CUTYPE : option string }.

(** The TRIGGER of an alarm: relative (a [timedelta]) or absolute. *)
Inductive Trigger :=
  | TrigRelative (seconds : Z)
  | TrigAbsolute (at_ : DtValue).

Record VAlarm := mkVAlarm { action : option string; trigger : option Trigger }.

(** What [vevent.get('rrule')] holds: one rule (its [to_ical()] text), or
    the list icalendar builds when the property is repeated. *)
Inductive RRuleProp :=
  | RRuleOne (rule : string)
  | RRuleMany (rules : list string).

(** What [vevent.get('sequence')] holds: an integer, the text of a value
    icalendar could not read as an integer (kept as a broken property), or
    the list built when the property is repeated. *)
Inductive SeqProp :=
  | SeqInt (n : Z)
  | SeqBroken (text : string)
  | SeqMany (values : list Z).

(** The record.  Start, end and duration are single well-formed values
    (a date or a date-time, a number of seconds); the recurrence rule and
    the sequence also come repeated or ill-formed, the cases on which the
    translator raises. *)
Record VEvent := mkVEvent {
  uid : option string;
  summary : option string;
  description : option string;
  location : option string;
  dtstart : option DtProp;
  dtend : option DtProp;
  duration : option Z;
  rrule : option RRuleProp;
  exdate : list DtValue;
  rdate : list DtValue;
  status : option string;
  transp : option string;
  class : option string;
  busystatus : option string;
  organizer : option AddrProp;
  attendee : list AddrProp;
  alarms : list VAlarm;
  sequence : option SeqProp }.

(** ** The canonical event (the dictionary sent to the destination) *)

Inductive GTime :=
  | GDate (date : Z)
  | GDateTime (dateTime : DtValue) (timeZone : string).

Inductive RecLine :=
  | RRULE (rule : string)
  | EXDATE_DATE (d : Z)
  | EXDATE (secs : Z)
  | RDATE_DATE (d : Z)
  | RDATE (secs : Z).

Record GOrganizer := mkGOrganizer { org_email : string; org_displayName : option string }.

Record GAttendee := mkGAttendee {
  att_email : string;
  att_displayName : option string;
  att_responseStatus : option string;
  att_optional : bool;
  att_resource : bool }.

Inductive Method := popup | email.

Record Reminder := mkReminder { method : Method; minutes : Z }.

Record GEvent := mkGEvent {
  iCalUID : string;
  g_summary : string;
  g_description : option string;
  g_location : option string;
  g_start : GTime;
  g_end : GTime;
  g_recurrence : option (list RecLine);
  g_status : option string;
  g_transparency : option string;
  g_visibility : option string;
  g_organizer : option GOrganizer;
  g_attendees : option (list GAttendee);
  g_reminders : option (list Reminder);
  g_sequence : option Z;
  outlookUID : option string }.

(** [self.stats]; [imported_without_attendees] reads 0 until first set. *)
Record Stats := mkStats {
  total_events : Z;
  imported : Z;
  skipped : Z;
  errors : Z;
  attendees_imported : Z;
  imported_without_attendees : Z }.

Definition stats0 : Stats := mkStats 0 0 0 0 0 0.

(** ** The translator: [_convert_vevent_to_google_event] *)

(** What a call of the translator does: [return None], [return event], or
    an exception leaving the function. *)
Inductive Translated :=
  | ReturnsNone
  | ReturnsEvent (event : GEvent)
  | Raises (e : Exn).

(** The title: the SUMMARY when it is not blank, otherwise the "smart
    default" chain of the [else] branch. *)
Definition default_summary (vevent : VEvent) : string :=
  let desc_str :=
    match description vevent with
    | Some d => if PyStr.nonempty d then PyStr.lower d else ""
    | None => ""
    end in
  let loc_str :=
    match location vevent with
    | Some l => if PyStr.nonempty l then PyStr.lower l else ""
    | None => ""
    end in
  if PyStr.contains "zoom" desc_str || PyStr.contains "zoom" loc_str
  then "Zoom Meeting"
  else if PyStr.contains "teams" desc_str || PyStr.contains "teams" loc_str
          || PyStr.contains "microsoft teams" desc_str
  then "Teams Meeting"
  else if PyStr.contains "webex" desc_str || PyStr.contains "webex" loc_str
  then "Webex Meeting"
  else if PyStr.contains "meet.google" desc_str
          || PyStr.contains "meet.google" loc_str
  then "Google Meet"
  else
    if truthy (busystatus vevent) then
      let status_str := PyStr.upper (default "" (busystatus vevent)) in
      if String.eqb status_str "FREE" then "Free"
      else if String.eqb status_str "TENTATIVE" then "Tentative"
      else if String.eqb status_str "OOF" then "Out of Office"
      else "Busy"
    else if truthy (transp vevent)
            && String.eqb (PyStr.upper (default "" (transp vevent))) "TRANSPARENT"
    then "Free"
    else "Busy".

Definition event_summary (vevent : VEvent) : string :=
  match summary vevent with
  | Some s =>
      if PyStr.nonempty s && PyStr.nonempty (PyStr.strip s) then s
      else default_summary vevent
  | None => default_summary vevent
  end.

(** The reminder of one VALARM, when its trigger is a [timedelta]. *)
Definition alarm_reminder (component : VAlarm) : option Reminder :=
  match trigger component with
  | Some (TrigRelative seconds) =>
      let minutes := Z.abs (Z.quot seconds 60) in
      let minutes := if 40320 <? minutes then 40320 else minutes in
      let method :=
        if truthy (action component)
           && String.eqb (PyStr.upper (default "" (action component))) "EMAIL"
        then email else popup in
      Some (mkReminder method minutes)
  | _ => None
  end.

(** The first loop: [reminders.append(...)] for each VALARM in walk order. *)
Fixpoint collect_reminders (components : list VAlarm) : list Reminder :=
  match components with
  | [] => []
  | component :: rest =>
      match alarm_reminder component with
      | Some r => r :: collect_reminders rest
      | None => collect_reminders rest
      end
  end.

Definition method_eqb (a b : Method) : bool :=
  match a, b with
  | popup, popup | email, email => true
  | _, _ => false
  end.

Definition key_eqb (k1 k2 : Method * Z) : bool :=
  method_eqb (fst k1) (fst k2) && (snd k1 =? snd k2).

(** The second loop, with its [seen] set of (method, minutes) keys. *)
Fixpoint unique_loop (seen : list (Method * Z)) (reminders : list Reminder)
  : list Reminder :=
  match reminders with
  | [] => []
  | r :: rest =>
      let key := (method r, minutes r) in
      if existsb (key_eqb key) seen then unique_loop seen rest
      else r :: unique_loop (key :: seen) rest
  end.

(** [event['reminders']['overrides']], or no [reminders] key at all. *)
Definition event_reminders (vevent : VEvent) : option (list Reminder) :=
  match collect_reminders (alarms vevent) with
  | [] => None
  | reminders => Some (firstn 5 (unique_loop [] reminders))
  end.

(** [str(x).replace('mailto:', '').replace('MAILTO:', '')]. *)
Definition strip_mailto (s : string) : string :=
  PyStr.replace "MAILTO:" "" (PyStr.replace "mailto:" "" s).

Definition event_organizer (vevent : VEvent) : option GOrganizer :=
  match organizer vevent with
  | Some o =>
      if PyStr.nonempty (addr o) then
        let org_email := strip_mailto (addr o) in
        if PyStr.nonempty org_email && PyStr.contains "@" org_email
           && negb (PyStr.startswith "invalid:" org_email)
        then Some (mkGOrganizer org_email
                     (if truthy (CN o) then CN o else None))
        else None
      else None
  | None => None
  end.

(** One pass of the attendee loop: [None] stands for [continue]. *)
Definition convert_attendee (a : AddrProp) : option GAttendee :=
  let email := strip_mailto (addr a) in
  if negb (PyStr.nonempty email) || negb (PyStr.contains "@" email) then None
  else if PyStr.startswith "invalid:" email then None
  else if PyStr.endswith "@resource.calendar.google.com" email then None
  else
    let partstat := PyStr.upper (default "" (PARTSTAT a)) in
    let role := PyStr.upper (default "" (ROLE a)) in
    let cutype := PyStr.upper (default "" (CUTYPE a)) in
    Some (mkGAttendee email
            (if truthy (CN a) then CN a else None)
            (Some (if String.eqb partstat "ACCEPTED" then "accepted"
                   else if String.eqb partstat "DECLINED" then "declined"
                   else if String.eqb partstat "TENTATIVE" then "tentative"
                   else "needsAction"))
            (String.eqb role "OPT-PARTICIPANT")
            (String.eqb cutype "RESOURCE" || String.eqb cutype "ROOM")).

(** The attendee loop: each appended attendee also bumps
    [self.stats['attendees_imported']]. *)
Fixpoint attendee_loop (st : Stats) (attendees : list AddrProp)
  : list GAttendee * Stats :=
  match attendees with
  | [] => ([], st)
  | a :: rest =>
      match convert_attendee a with
      | None => attendee_loop st rest
      | Some att_data =>
          let st1 := mkStats (total_events st) (imported st) (skipped st)
                       (errors st) (attendees_imported st + 1)
                       (imported_without_attendees st) in
          let '(l, st2) := attendee_loop st1 rest in
          (att_data :: l, st2)
      end
  end.

Definition exdate_line (v : DtValue) : RecLine :=
  match v with PyDate o => EXDATE_DATE o | PyDateTime s _ => EXDATE s end.

Definition rdate_line (v : DtValue) : RecLine :=
  match v with PyDate o => RDATE_DATE o | PyDateTime s _ => RDATE s end.

(** [event['recurrence']], or no such key; a repeated RRULE is a list,
    true when not empty, and [rrule.to_ical()] raises on it. *)
Definition event_recurrence (vevent : VEvent) : Exn + option (list RecLine) :=
  match rrule vevent with
  | Some (RRuleOne rrule_str) =>
      if PyStr.nonempty rrule_str
      then inr (Some (RRULE rrule_str :: map exdate_line (exdate vevent)
                        ++ map rdate_line (rdate vevent)))
      else inr None
  | Some (RRuleMany []) => inr None
  | Some (RRuleMany (_ :: _)) => inl AttributeError
  | None => inr None
  end.

(** [if sequence: event['sequence'] = int(sequence)]. *)
Definition event_sequence (vevent : VEvent) : Exn + option Z :=
  match sequence vevent with
  | Some (SeqInt n) => if n =? 0 then inr None else inr (Some n)
  | Some (SeqBroken text) =>
      if PyStr.nonempty text then inl ValueError else inr None
  | Some (SeqMany []) => inr None
  | Some (SeqMany (_ :: _)) => inl TypeError
  | None => inr None
  end.

Definition event_status (vevent : VEvent) : option string :=
  if truthy (status vevent) then
    let status_str := PyStr.upper (default "" (status vevent)) in
    Some (if String.eqb status_str "CANCELLED" then "cancelled"
          else if String.eqb status_str "TENTATIVE" then "tentative"
          else "confirmed")
  else None.

Definition event_transparency (vevent : VEvent) : option string :=
  if truthy (transp vevent) then
    Some (if String.eqb (PyStr.upper (default "" (transp vevent))) "TRANSPARENT"
          then "transparent" else "opaque")
  else None.

Definition event_visibility (vevent : VEvent) : option string :=
  if truthy (class vevent) then
    let class_str := PyStr.upper (default "" (class vevent)) in
    Some (if String.eqb class_str "PRIVATE" then "private"
          else if String.eqb class_str "CONFIDENTIAL" then "confidential"
          else "default")
  else None.

Section Translator.

(** The collaborators the translator calls: the timezone database behind
    [normalize_timezone], the icalendar serialiser [vevent.to_ical()], and
    [lambda raw: hashlib.md5(str(raw).encode()).hexdigest()]. *)
Variable pytz_known : string -> bool.
Variable to_ical : VEvent -> string.
Variable md5_hexdigest : string -> string.

(** [_get_timezone]. *)
Definition _get_timezone (dt_prop : DtProp) (default_tz : string) : string :=
  if truthy (TZID dt_prop)
  then normalize_timezone pytz_known (default "" (TZID dt_prop))
  else
    match dt dt_prop with
    | PyDateTime _ (Some tz_name) =>
        if PyStr.nonempty tz_name && negb (String.eqb tz_name "UTC")
        then normalize_timezone pytz_known tz_name
        else default_tz
    | _ => default_tz
    end.

(** The identifier: the UID, or the digest of the serialised record
    followed by ["@imported"]. *)
Definition event_uid (vevent : VEvent) : string :=
  match uid vevent with
  | Some u =>
      if PyStr.nonempty u then u
      else md5_hexdigest (to_ical vevent) +:+ "@imported"
  | None => md5_hexdigest (to_ical vevent) +:+ "@imported"
  end.

(** [end_dt] and [end_tz] as computed after the start. *)
Definition event_end (vevent : VEvent) (start : DtProp) (start_tz calendar_tz : string)
  : Exn + (DtValue * string) :=
  match dtend vevent with
  | Some e => inr (dt e, _get_timezone e calendar_tz)
  | None =>
      let delta :=
        match duration vevent with
        | Some d => d
        | None => if is_plain_date (dt start) then 86400 else 3600
        end in
      match dt_add (dt start) delta with
      | inr end_dt => inr (end_dt, start_tz)
      | inl e => inl e
      end
  end.

Definition _convert_vevent_to_google_event
    (st : Stats) (vevent : VEvent) (calendar_tz : string) (include_attendees : bool)
  : Translated * Stats :=
  let ical_uid := event_uid vevent in
  let title := event_summary vevent in
  match dtstart vevent with
  | None => (ReturnsNone, st)
  | Some start =>
      let start_dt := dt start in
      let start_tz := _get_timezone start calendar_tz in
      match event_end vevent start start_tz calendar_tz with
      | inl e => (Raises e, st)
      | inr (end_dt, end_tz) =>
          let '(g_start, g_end) :=
            if is_plain_date start_dt
            then (GDate (date_of start_dt), GDate (date_of end_dt))
            else (GDateTime start_dt start_tz, GDateTime end_dt end_tz) in
          match event_recurrence vevent with
          | inl e => (Raises e, st)
          | inr recurrence =>
              let '(event_attendees, st') :=
                if include_attendees then attendee_loop st (attendee vevent)
                else ([], st) in
              match event_sequence vevent with
              | inl e => (Raises e, st')
              | inr sequence_number =>
                  (ReturnsEvent
                     (mkGEvent ical_uid title
                        (if truthy (description vevent)
                         then description vevent else None)
                        (if truthy (location vevent) then location vevent else None)
                        g_start g_end
                        recurrence
                        (event_status vevent)
                        (event_transparency vevent)
                        (event_visibility vevent)
                        (event_organizer vevent)
                        (match event_attendees with [] => None | l => Some l end)
                        (event_reminders vevent)
                        sequence_number
                        (if truthy (uid vevent) then uid vevent else None)),
                   st')
              end
          end
      end
  end.

End Translator.

(** ** The destination service *)

(** What [service.events().import_(...).execute()] does: returns, raises
    [HttpError] (with [e.resp.status] and the text [str(e)]), or raises
    something else. *)
Inductive Response :=
  | Success
  | HttpError (status : Z) (text : string)
  | OtherException.

(** An event as [events().list] reports it. *)
Record RemoteEvent := mkRemoteEvent {
  r_iCalUID : option string;
  r_outlookUID : option string }.

(** The answers of successive [events().list(...).execute()] calls: a call
    raises, or returns a page with its [nextPageToken] and the answers that
    follow. *)
Inductive Listing :=
  | ListRaises
  | ListPage (items : list RemoteEvent) (nextPageToken : option string)
             (next : Listing).

Definition add_remote (uids : gset string) (event : RemoteEvent) : gset string :=
  let uids := if truthy (r_iCalUID event)
              then uids ∪ {[ default "" (r_iCalUID event) ]} else uids in
  if truthy (r_outlookUID event)
  then uids ∪ {[ default "" (r_outlookUID event) ]} else uids.

(** [_get_existing_uids]: the loop over pages; an exception ends it with
    what was collected so far. *)
Fixpoint existing_uids_loop (uids : gset string) (pages : Listing) : gset string :=
  match pages with
  | ListRaises => uids
  | ListPage items page_token next =>
      let uids := fold_left add_remote items uids in
      if truthy page_token then existing_uids_loop uids next else uids
  end.

Definition _get_existing_uids (pages : Listing) : gset string :=
  existing_uids_loop ∅ pages.

(** ** The submission loop: [import_events] *)

(** [event_copy = event.copy()] with [organizer] and [attendees] popped. *)
Definition without_participants (event : GEvent) : GEvent :=
  mkGEvent (iCalUID event) (g_summary event) (g_description event)
    (g_location event) (g_start event) (g_end event) (g_recurrence event)
    (g_status event) (g_transparency event) (g_visibility event)
    None None
    (g_reminders event) (g_sequence event) (outlookUID event).

Definition STRUCTURAL_MARKER : string := "participantIsNeitherOrganizerNorAttendee".

Section Importer.

(** The service: its state, and the two calls the importer makes. *)
Variable Srv : Type.
Variable import_ : Srv -> GEvent -> Response * Srv.
Variable events_list : Srv -> Listing.

(** The variables of the loop.  [sent] records, oldest first, every body
    handed to [import_]; [without_att] is
    [self.stats['imported_without_attendees']], the one statistic the loop
    writes directly. *)
Record Loop := mkLoop {
  srv : Srv;
  existing_uids : gset string;
  l_imported : Z;
  l_skipped : Z;
  l_errors : Z;
  without_att : Z;
  sent : list GEvent }.

(** [if ical_uid: existing_uids.add(ical_uid)]. *)
Definition mark (uids : gset string) (ical_uid : string) : gset string :=
  if PyStr.nonempty ical_uid then uids ∪ {[ ical_uid ]} else uids.

(** One iteration of [for i, event in enumerate(events)] (the sleeps and
    the progress lines leave the variables alone). *)
Definition import_one (skip_duplicates dry_run : bool) (L : Loop) (event : GEvent)
  : Loop :=
  let ical_uid := iCalUID event in
  if skip_duplicates && bool_decide (ical_uid ∈ existing_uids L) then
    mkLoop (srv L) (existing_uids L) (l_imported L) (l_skipped L + 1)
      (l_errors L) (without_att L) (sent L)
  else if dry_run then
    mkLoop (srv L) (existing_uids L) (l_imported L + 1) (l_skipped L)
      (l_errors L) (without_att L) (sent L)
  else
    match import_ (srv L) event with
    | (Success, s1) =>
        mkLoop s1 (mark (existing_uids L) ical_uid) (l_imported L + 1)
          (l_skipped L) (l_errors L) (without_att L) (sent L ++ [event])
    | (HttpError status text, s1) =>
        if status =? 429 then
          match import_ s1 event with
          | (Success, s2) =>
              mkLoop s2 (mark (existing_uids L) ical_uid) (l_imported L + 1)
                (l_skipped L) (l_errors L) (without_att L)
                (sent L ++ [event; event])
          | (_, s2) =>
              mkLoop s2 (existing_uids L) (l_imported L) (l_skipped L)
                (l_errors L + 1) (without_att L) (sent L ++ [event; event])
          end
        else if status =? 409 then
          mkLoop s1 (existing_uids L) (l_imported L) (l_skipped L + 1)
            (l_errors L) (without_att L) (sent L ++ [event])
        else if (status =? 400) && PyStr.contains STRUCTURAL_MARKER text then
          let event_copy := without_participants event in
          match import_ s1 event_copy with
          | (Success, s2) =>
              mkLoop s2 (mark (existing_uids L) ical_uid) (l_imported L + 1)
                (l_skipped L) (l_errors L) (without_att L + 1)
                (sent L ++ [event; event_copy])
          | (_, s2) =>
              mkLoop s2 (existing_uids L) (l_imported L) (l_skipped L)
                (l_errors L + 1) (without_att L)
                (sent L ++ [event; event_copy])
          end
        else
          mkLoop s1 (existing_uids L) (l_imported L) (l_skipped L)
            (l_errors L + 1) (without_att L) (sent L ++ [event])
    | (OtherException, s1) =>
        mkLoop s1 (existing_uids L) (l_imported L) (l_skipped L)
          (l_errors L + 1) (without_att L) (sent L ++ [event])
    end.

(** The loop variables before the first iteration: the set is fetched only
    under [skip_duplicates and not dry_run]. *)
Definition loop_start (st : Stats) (s : Srv) (skip_duplicates dry_run : bool) : Loop :=
  mkLoop s
    (if skip_duplicates && negb dry_run
     then _get_existing_uids (events_list s) else ∅)
    0 0 0 (imported_without_attendees st) [].

Definition run_loop (skip_duplicates dry_run : bool) (L : Loop) (events : list GEvent)
  : Loop :=
  fold_left (import_one skip_duplicates dry_run) events L.

(** The statistics written back when the loop is over. *)
Definition loop_stats (st : Stats) (total : Z) (L : Loop) : Stats :=
  mkStats (total_events st + total)
    (imported st + l_imported L)
    (skipped st + l_skipped L)
    (errors st + l_errors L)
    (attendees_imported st)
    (without_att L).

Definition import_events (st : Stats) (s : Srv) (events : list GEvent)
    (skip_duplicates dry_run : bool) : Stats * Loop :=
  let L := run_loop skip_duplicates dry_run
             (loop_start st s skip_duplicates dry_run) events in
  (loop_stats st (Z.of_nat (length events)) L, L).

End Importer.

Arguments srv {Srv} _.
Arguments existing_uids {Srv} _.
Arguments l_imported {Srv} _.
Arguments l_skipped {Srv} _.
Arguments l_errors {Srv} _.
Arguments without_att {Srv} _.
Arguments sent {Srv} _.
Arguments mkLoop {Srv} _ _ _ _ _ _ _.

(** A destination that answers from a script: the pages of its listing
    and its next answers to [import_] (success once the script is used
    up). *)
Definition Scripted : Type := Listing * list Response.

Definition scripted_import (s : Scripted) (_ : GEvent) : Response * Scripted :=
  match snd s with
  | [] => (Success, s)
  | r :: rest => (r, (fst s, rest))
  end.

Definition scripted_list (s : Scripted) : Listing := fst s.

(** ** Notions used to state the properties *)

(** [a] occurs in [b] when case is ignored. *)
Definition occurs_ci (a b : string) : Prop :=
  exists pre post, PyStr.lower b = pre +:+ PyStr.lower a +:+ post.

(** The pair a reminder is deduplicated by. *)
Definition rkey (r : Reminder) : Method * Z := (method r, minutes r).


(** ** Sample inputs *)

(** Stand-ins for the collaborators when a property is run on a sample:
    no timezone database, and a serialiser and digest that only need to be
    functions. *)
Definition no_pytz (_ : string) : bool := false.

Definition sample_to_ical (vevent : VEvent) : string :=
  "BEGIN:VEVENT|UID:" +:+ default "" (uid vevent)
  +:+ "|SUMMARY:" +:+ default "" (summary vevent) +:+ "|END:VEVENT".

Definition sample_md5 (raw : string) : string := "md5<" +:+ raw +:+ ">".

(** A record with nothing but an all-day start on 2024-01-10. *)
Definition allday_vevent : VEvent :=
  mkVEvent None None None None
    (Some (mkDtProp (PyDate (ymd2ord 2024 1 10)) None)) None None
    None [] [] None None None None None [] [] None.

(** The same record with three alarms, 30 minutes before: two DISPLAY and
    one EMAIL. *)
Definition alarms_vevent : VEvent :=
  mkVEvent None None None None
    (Some (mkDtProp (PyDate (ymd2ord 2024 1 10)) None)) None None
    None [] [] None None None None None []
    [ mkVAlarm (Some "DISPLAY") (Some (TrigRelative (-1800)));
      mkVAlarm (Some "DISPLAY") (Some (TrigRelative (-1800)));
      mkVAlarm (Some "email") (Some (TrigRelative (-1800))) ]
    None.

(** ** The title rules, as the specification words them *)

(** The keyword occurs in the text, whatever the text's case. *)
Definition mentions (keyword : string) (text : option string) : bool :=
  match text with
  | Some t => PyStr.contains keyword (PyStr.lower t)
  | None => false
  end.

Definition platform_titles : list (string * string) :=
  [ ("zoom", "Zoom Meeting"); ("teams", "Teams Meeting");
    ("webex", "Webex Meeting"); ("meet.google", "Google Meet") ].

(** Rule 1: the explicit title, unless blank after trimming. *)
Definition rule_title (vevent : VEvent) : option string :=
  match summary vevent with
  | Some s => if PyStr.nonempty (PyStr.strip s) then Some s else None
  | None => None
  end.

(** Rule 2: the first platform whose keyword is in the description or the
    location. *)
Definition rule_platform (vevent : VEvent) : option string :=
  match find (fun kt => mentions (fst kt) (description vevent)
                        || mentions (fst kt) (location vevent))
             platform_titles with
  | Some kt => Some (snd kt)
  | None => None
  end.

Definition busy_title (value : string) : string :=
  let v := PyStr.upper value in
  if String.eqb v "FREE" then "Free"
  else if String.eqb v "TENTATIVE" then "Tentative"
  else if String.eqb v "OOF" then "Out of Office"
  else "Busy".

(** Rule 3 as the code has it: a busy status with a non-empty value. *)
Definition rule_busystatus (vevent : VEvent) : option string :=
  match busystatus vevent with
  | Some b => if PyStr.nonempty b then Some (busy_title b) else None
  | None => None
  end.

(** Rule 3 as the claim words it: any busy status the record has. *)
Definition rule_busystatus_stated (vevent : VEvent) : option string :=
  match busystatus vevent with
  | Some b => Some (busy_title b)
  | None => None
  end.

(** Rule 4: transparency equal to transparent. *)
Definition rule_transparency (vevent : VEvent) : option string :=
  match transp vevent with
  | Some t => if String.eqb (PyStr.upper t) "TRANSPARENT" then Some "Free" else None
  | None => None
  end.

(** Strict priority: the first rule that yields a title wins. *)
Fixpoint first_match (rules : list (VEvent -> option string)) (vevent : VEvent)
    (fallback : string) : string :=
  match rules with
  | [] => fallback
  | rule :: rest =>
      match rule vevent with
      | Some title => title
      | None => first_match rest vevent fallback
      end
  end.

Definition title_by_priority (vevent : VEvent) : string :=
  first_match [rule_title; rule_platform; rule_busystatus; rule_transparency]
    vevent "Busy".

Definition title_as_stated (vevent : VEvent) : string :=
  first_match [rule_title; rule_platform; rule_busystatus_stated; rule_transparency]
    vevent "Busy".

(** A record with a start, a busy status whose value is empty, and
    TRANSP:TRANSPARENT. *)
Definition empty_busystatus_vevent : VEvent :=
  mkVEvent None None None None
    (Some (mkDtProp (PyDate (ymd2ord 2024 1 10)) None)) None None
    None [] [] None (Some "TRANSPARENT") None (Some "") None [] [] None.

(** A record with an explicit title and "zoom" in its location. *)
Definition titled_zoom_vevent : VEvent :=
  mkVEvent None (Some "Budget review") None (Some "https://zoom.us/j/1")
    (Some (mkDtProp (PyDate (ymd2ord 2024 1 10)) None)) None None
    None [] [] None None None None None [] [] None.

(** A record with a start and a UID property whose value is empty. *)
Definition empty_uid_vevent : VEvent :=
  mkVEvent (Some "") (Some "Lunch") None None
    (Some (mkDtProp (PyDate (ymd2ord 2024 1 10)) None)) None None
    None [] [] None None None None None [] [] None.

(** A record with a UID. *)
Definition uid_vevent : VEvent :=
  mkVEvent (Some "040000008200E00074C5B7101A82E008") (Some "Lunch") None None
    (Some (mkDtProp (PyDate (ymd2ord 2024 1 10)) None)) None None
    None [] [] None None None None None [] [] None.

(** An all-day record starting on 9999-12-31, the last day a [date] can
    hold, with no end and no duration. *)
Definition last_day_vevent : VEvent :=
  mkVEvent (Some "last-day") (Some "Forever") None None
    (Some (mkDtProp (PyDate (ymd2ord 9999 12 31)) None)) None None
    None [] [] None None None None None [] [] None.

(** The delta added to the start of a record without DTEND. *)
Definition end_delta (vevent : VEvent) (start : DtProp) : Z :=
  match duration vevent with
  | Some d => d
  | None => if is_plain_date (dt start) then 86400 else 3600
  end.

(** ** Notions used to state the importer's properties *)

(** The loop variables after an iteration that only counted a skip. *)
Definition skipped_one {Srv : Type} (L : Loop Srv) : Loop Srv :=
  mkLoop (srv L) (existing_uids L) (l_imported L) (l_skipped L + 1)
    (l_errors L) (without_att L) (sent L).

(** The destination records the listing delivers: page after page, up to
    the first call that raises or the first page without a next token. *)
Fixpoint fetched (pages : Listing) : list RemoteEvent :=
  match pages with
  | ListRaises => []
  | ListPage items page_token next =>
      items ++ (if truthy page_token then fetched next else [])
  end.

(** A destination record is known under [id]: by its own iCalUID or by the
    outlookUID provenance field. *)
Definition known_as (id : string) (r : RemoteEvent) : Prop :=
  id <> "" /\ (r_iCalUID r = Some id \/ r_outlookUID r = Some id).

(** An event with an organizer and two attendees. *)
Definition sample_event (id : string) : GEvent :=
  mkGEvent id "Lunch" None None
    (GDate (ymd2ord 2024 1 10)) (GDate (ymd2ord 2024 1 11))
    None None None None
    (Some (mkGOrganizer "boss@example.com" None))
    (Some [ mkGAttendee "ann@example.com" None (Some "accepted") false false;
            mkGAttendee "bob@example.com" None (Some "needsAction") false false ])
    None None (Some id).

(** A destination whose calendar is empty. *)
Definition empty_listing : Listing := ListPage [] None ListRaises.

(** A destination that already holds one event, known as "abc". *)
Definition abc_listing : Listing :=
  ListPage [mkRemoteEvent (Some "abc") None] None ListRaises.

(** The text of the destination's structural permission error. *)
Definition structural_text : string :=
  "<HttpError 400 ... participantIsNeitherOrganizerNorAttendee>".

(** The events of a batch whose identifier is in a given set. *)
Definition already_known (uids : gset string) (events : list GEvent) : list GEvent :=
  List.filter (fun event => bool_decide (iCalUID event ∈ uids)) events.

(** A record with a UID, a start and two attendees. *)
Definition attendees_vevent : VEvent :=
  mkVEvent (Some "meeting-1") (Some "Planning") None None
    (Some (mkDtProp (PyDate (ymd2ord 2024 1 10)) None)) None None
    None [] [] None None None None None
    [ mkAddrProp "mailto:ann@example.com" None (Some "ACCEPTED") None None;
      mkAddrProp "MAILTO:bob@example.com" (Some "Bob") None None None ]
    [] None.

(** ** Where a translation can end *)

(** The end can be computed: the record has a start, and an explicit end
    or a start plus delta within the range of dates. *)
Definition end_in_range (vevent : VEvent) : bool :=
  match dtstart vevent with
  | None => false
  | Some start =>
      match dtend vevent with
      | Some _ => true
      | None =>
          match dt_add (dt start) (end_delta vevent start) with
          | inr _ => true
          | inl _ => false
          end
      end
  end.

(** The RRULE is repeated: [vevent.get('rrule')] is a list that is not
    empty. *)
Definition rule_repeated (vevent : VEvent) : bool :=
  match rrule vevent with
  | Some (RRuleMany (_ :: _)) => true
  | _ => false
  end.

(** What [int(sequence)] raises, if anything. *)
Definition sequence_unreadable (vevent : VEvent) : option Exn :=
  match sequence vevent with
  | Some (SeqBroken text) => if PyStr.nonempty text then Some ValueError else None
  | Some (SeqMany (_ :: _)) => Some TypeError
  | _ => None
  end.

(** The statistics once the attendee loop is over (or was not asked for). *)
Definition after_attendees (st : Stats) (include_attendees : bool) (vevent : VEvent)
  : Stats :=
  if include_attendees then snd (attendee_loop st (attendee vevent)) else st.

(** The attendees one translation adds to the counter: those the loop
    accepts, when the translation gets as far as the loop. *)
Definition counted_attendees (include_attendees : bool) (vevent : VEvent) : Z :=
  if include_attendees && end_in_range vevent && negb (rule_repeated vevent)
  then Z.of_nat (length (omap convert_attendee (attendee vevent)))
  else 0.

(** The identifier of an event is one the translator gives to a record. *)
Definition has_translated_id (event : GEvent) : Prop :=
  exists to_ical md5_hexdigest vevent,
    iCalUID event = event_uid to_ical md5_hexdigest vevent.



(** ** Reading a calendar: [parse_ics_file]

    The components of a parsed calendar in the order [cal.walk()] yields
    them; [None] stands for a file that [Calendar.from_ical] rejects. *)

Inductive Component :=
  | VCALENDAR (x_wr_timezone : option string)
  | VTIMEZONE (tzid : option string)
  | VEVENT (vevent : VEvent)
  | OtherComponent.

Section Parser.

Variable pytz_known : string -> bool.
Variable to_ical : VEvent -> string.
Variable md5_hexdigest : string -> string.

(** The first loop: the calendar-level timezone. *)
Fixpoint calendar_timezone (walk : list Component) (calendar_tz : string) : string :=
  match walk with
  | [] => calendar_tz
  | VCALENDAR x_wr_timezone :: rest =>
      if truthy x_wr_timezone
      then normalize_timezone pytz_known (default "" x_wr_timezone)
      else calendar_timezone rest calendar_tz
  | VTIMEZONE tzid :: rest =>
      if truthy tzid
      then normalize_timezone pytz_known (default "" tzid)
      else calendar_timezone rest calendar_tz
  | _ :: rest => calendar_timezone rest calendar_tz
  end.

(** [self.stats['errors'] += 1]. *)
Definition count_error (st : Stats) : Stats :=
  mkStats (total_events st) (imported st) (skipped st) (errors st + 1)
    (attendees_imported st) (imported_without_attendees st).

(** The second loop: every VEVENT is converted; an exception is caught and
    counted, [None] is dropped. *)
Fixpoint convert_loop (st : Stats) (walk : list Component) (calendar_tz : string)
    (include_attendees : bool) : list GEvent * Stats :=
  match walk with
  | [] => ([], st)
  | VEVENT vevent :: rest =>
      match _convert_vevent_to_google_event pytz_known to_ical md5_hexdigest
              st vevent calendar_tz include_attendees with
      | (ReturnsEvent event, st1) =>
          let '(events, st2) := convert_loop st1 rest calendar_tz include_attendees in
          (event :: events, st2)
      | (ReturnsNone, st1) => convert_loop st1 rest calendar_tz include_attendees
      | (Raises _, st1) =>
          convert_loop (count_error st1) rest calendar_tz include_attendees
      end
  | _ :: rest => convert_loop st rest calendar_tz include_attendees
  end.

(** [parse_ics_file]: the events, the calendar timezone, and the
    statistics.  [default_timezone] is [self.default_timezone]. *)
Definition parse_ics_file (st : Stats) (default_timezone : string)
    (cal : option (list Component)) (include_attendees : bool)
  : (list GEvent * string) * Stats :=
  match cal with
  | None => (([], default_timezone), st)
  | Some walk =>
      let calendar_tz := calendar_timezone walk default_timezone in
      let '(events, st') := convert_loop st walk calendar_tz include_attendees in
      ((events, calendar_tz), st')
  end.

End Parser.

(** ** Filtering by date: [filter_events_by_date]

    The start of an event is written by [isoformat] and read back here by
    [fromisoformat] or [strptime]; what is read is the date of the value
    written. *)
Definition event_date (event : GEvent) : Z :=
  match g_start event with
  | GDate d => d
  | GDateTime v _ => date_of v
  end.

Fixpoint filter_loop (events : list GEvent) (start_date end_date : option Z)
  : list GEvent :=
  match events with
  | [] => []
  | event :: rest =>
      let d := event_date event in
      let before := match start_date with Some s => d <? s | None => false end in
      let after := match end_date with Some e => e <=? d | None => false end in
      if before then filter_loop rest start_date end_date
      else if after then filter_loop rest start_date end_date
      else event :: filter_loop rest start_date end_date
  end.

Definition filter_events_by_date (events : list GEvent) (start_date end_date : option Z)
  : list GEvent :=
  match start_date, end_date with
  | None, None => events
  | _, _ => filter_loop events start_date end_date
  end.

(** ** The steps of [main] between parsing and importing *)

(** [l[:n]] for any integer [n]. *)
Definition slice_to {A : Type} (n : Z) (l : list A) : list A :=
  if 0 <=? n then firstn (Z.to_nat n) l
  else firstn (Z.to_nat (Z.of_nat (length l) + n)) l.

(** [if args.limit and len(events) > args.limit:
       events = events[:args.limit]]. *)
Definition apply_limit (limit : option Z) (events : list GEvent) : list GEvent :=
  match limit with
  | Some n =>
      if negb (n =? 0) && (n <? Z.of_nat (length events))
      then slice_to n events else events
  | None => events
  end.

Definition with_attendees (event : GEvent) (attendees : option (list GAttendee))
  : GEvent :=
  mkGEvent (iCalUID event) (g_summary event) (g_description event)
    (g_location event) (g_start event) (g_end event) (g_recurrence event)
    (g_status event) (g_transparency event) (g_visibility event)
    (g_organizer event) attendees
    (g_reminders event) (g_sequence event) (outlookUID event).

(** One pass of the [--add-self] loop. *)
Definition add_self_to (add_self : string) (event : GEvent) : GEvent :=
  let attendees := default [] (g_attendees event) in
  let emails := map (fun a => PyStr.lower (att_email a)) attendees in
  if existsb (String.eqb (PyStr.lower add_self)) emails then event
  else with_attendees event
         (Some (attendees
                  ++ [mkGAttendee add_self None (Some "accepted") false false])%list).

(** [if args.add_self and not args.no_attendees: for event in events: ...]. *)
Definition add_self_step (add_self : option string) (no_attendees : bool)
    (events : list GEvent) : list GEvent :=
  if truthy add_self && negb no_attendees
  then map (add_self_to (default "" add_self)) events
  else events.

(** The command-line options the loop over files reads. *)
Record Args := mkArgs {
  no_skip_duplicates : bool;
  no_attendees : bool;
  dry_run_flag : bool;
  start_date_arg : option Z;
  end_date_arg : option Z;
  limit : option Z;
  add_self : option string }.

Section Main.

Variable pytz_known : string -> bool.
Variable to_ical : VEvent -> string.
Variable md5_hexdigest : string -> string.
Variable Srv : Type.
Variable import_ : Srv -> GEvent -> Response * Srv.
Variable events_list : Srv -> Listing.

(** The events of one file as they reach [import_events]. *)
Definition prepare_events (args : Args) (events : list GEvent) : list GEvent :=
  let events :=
    match start_date_arg args, end_date_arg args with
    | None, None => events
    | _, _ => filter_events_by_date events (start_date_arg args) (end_date_arg args)
    end in
  let events := apply_limit (limit args) events in
  add_self_step (add_self args) (no_attendees args) events.

(** The body of [for ics_file in ics_files]: the statistics, the service
    and everything sent to it for this file. *)
Definition process_file (args : Args) (st : Stats) (default_timezone : string)
    (s : Srv) (cal : option (list Component)) : Stats * Srv * list GEvent :=
  let '((events, _), st1) :=
    parse_ics_file pytz_known to_ical md5_hexdigest st default_timezone cal
      (negb (no_attendees args)) in
  let events := prepare_events args events in
  match events with
  | [] => (st1, s, [])
  | _ =>
      let '(st2, L) :=
        import_events Srv import_ events_list st1 s events
          (negb (no_skip_duplicates args)) (dry_run_flag args) in
      (st2, srv L, sent L)
  end.

End Main.

(** ** Notions used to state the further properties *)

(** The table keys that contain an earlier key, with the target the
    partial scan reaches for them. *)
Definition scan_target (key value : string) : string :=
  if String.eqb key "US Mountain Standard Time" then "America/Denver"
  else if String.eqb key "AUS Eastern Standard Time" then "America/New_York"
  else if String.eqb key "AUS Central Standard Time" then "America/Chicago"
  else if String.eqb key "SA Pacific Standard Time" then "America/Los_Angeles"
  else value.

(** An address the attendee loop keeps, once [mailto:] is removed. *)
Definition acceptable_attendee (email : string) : bool :=
  PyStr.nonempty email && PyStr.contains "@" email
  && negb (PyStr.startswith "invalid:" email)
  && negb (PyStr.endswith "@resource.calendar.google.com" email).

(** A timed record, 2024-03-01 09:00, with a tzinfo named UTC and no TZID. *)
Definition utc_vevent : VEvent :=
  mkVEvent (Some "utc-1") (Some "Standup") None None
    (Some (mkDtProp (PyDateTime (ymd2ord 2024 3 1 * 86400 + 9 * 3600) (Some "UTC"))
             None))
    None None None [] [] None None None None None [] [] None.

(** A record whose organizer and one of two attendees are invalid. *)
Definition invalid_people_vevent : VEvent :=
  mkVEvent (Some "people-1") (Some "Review") None None
    (Some (mkDtProp (PyDate (ymd2ord 2024 1 10)) None)) None None
    None [] [] (Some "Tentative") (Some "opaque") (Some "private") None
    (Some (mkAddrProp "mailto:invalid:nomail" None None None None))
    [ mkAddrProp "mailto:invalid:nomail@x" None None None None;
      mkAddrProp "mailto:ann@example.com" None (Some "declined")
        (Some "opt-participant") None ]
    [] None.

(** The VEVENT records of a calendar that have a start. *)
Fixpoint with_start (walk : list Component) : list VEvent :=
  match walk with
  | [] => []
  | VEVENT vevent :: rest =>
      match dtstart vevent with
      | Some _ => vevent :: with_start rest
      | None => with_start rest
      end
  | _ :: rest => with_start rest
  end.

(** The number of attendees carried by a list of events. *)
Fixpoint attendee_total (events : list GEvent) : Z :=
  match events with
  | [] => 0
  | event :: rest =>
      Z.of_nat (length (default [] (g_attendees event))) + attendee_total rest
  end.

(** A calendar with a timezone, one good record, one record without a
    start and one whose end overflows. *)
Definition sample_calendar : list Component :=
  [ VCALENDAR (Some "Central Standard Time");
    VTIMEZONE (Some "Pacific Standard Time");
    VEVENT attendees_vevent; OtherComponent;
    VEVENT (mkVEvent (Some "no-start") (Some "Lost") None None None None None
              None [] [] None None None None None [] [] None);
    VEVENT last_day_vevent ].

(** The date window of [filter_events_by_date]: the start bound is
    included, the end bound is not. *)
Definition in_window (start_date end_date : option Z) (event : GEvent) : Prop :=
  (forall s, start_date = Some s -> s <= event_date event)
  /\ (forall e, end_date = Some e -> event_date event < e).

(** A timed event on the given day, at the given second of the day. *)
Definition timed_event (id : string) (y m d secs : Z) : GEvent :=
  mkGEvent id "Call" None None
    (GDateTime (PyDateTime (ymd2ord y m d * 86400 + secs) None) "UTC")
    (GDateTime (PyDateTime (ymd2ord y m d * 86400 + secs + 3600) None) "UTC")
    None None None None None None None None None.

(** The attendees the records of a calendar add to the counter. *)
Fixpoint counted_total (include_attendees : bool) (walk : list Component) : Z :=
  match walk with
  | [] => 0
  | VEVENT vevent :: rest =>
      counted_attendees include_attendees vevent
      + counted_total include_attendees rest
  | _ :: rest => counted_total include_attendees rest
  end.


(** A timed record, 2024-03-01 09:00, whose DTEND is the date 2024-03-02. *)
Definition date_end_vevent : VEvent :=
  mkVEvent (Some "mixed-1") (Some "Offsite") None None
    (Some (mkDtProp (PyDateTime (ymd2ord 2024 3 1 * 86400 + 9 * 3600) None) None))
    (Some (mkDtProp (PyDate (ymd2ord 2024 3 2)) None))
    None None [] [] None None None None None [] [] None.
(** * Properties *)

(** ** Strings *)

Lemma startswith_spec (p s : string) :
  PyStr.startswith p s = true <-> exists post, s = p +:+ post.
Proof.
  revert s; induction p as [|a p IH]; intros s; simpl.
  - split; [intros _; exists s; reflexivity | reflexivity].
  - destruct s as [|b s]; simpl.
    + split; [discriminate | intros [post H]; discriminate].
    + rewrite andb_true_iff, Ascii.eqb_eq, IH. split.
      * intros [-> [post ->]]. exists post. reflexivity.
      * intros [post H]. injection H as -> ->. split; [reflexivity | eauto].
Qed.

Lemma contains_spec (sub s : string) :
  PyStr.contains sub s = true <-> exists pre post, s = pre +:+ sub +:+ post.
Proof.
  induction s as [|c s IH].
  - simpl. rewrite orb_false_r, startswith_spec. split.
    + intros [post H]. exists "", post. exact H.
    + intros [pre [post H]]. destruct pre; simpl in H; [eauto | discriminate].
  - cbn [PyStr.contains]. rewrite orb_true_iff, startswith_spec, IH. split.
    + intros [[post H] | [pre [post H]]].
      * exists "", post. exact H.
      * exists (String c pre), post. simpl. rewrite H. reflexivity.
    + intros [pre [post H]]. destruct pre as [|c' pre]; simpl in H.
      * left. eauto.
      * right. injection H as _ H. eauto.
Qed.

Lemma partial_match_spec (tz_str key : string) :
  partial_match tz_str key = true <-> occurs_ci key tz_str \/ occurs_ci tz_str key.
Proof.
  unfold partial_match, occurs_ci.
  rewrite orb_true_iff, !contains_spec. reflexivity.
Qed.

Lemma nonempty_true (s : string) : PyStr.nonempty s = true <-> s <> "".
Proof. destruct s; simpl; split; congruence. Qed.

Lemma nonempty_false (s : string) : PyStr.nonempty s = false <-> s = "".
Proof. destruct s; simpl; split; congruence. Qed.

(** ** The timezone table *)

Lemma dict_get_In (table : list (string * string)) (k v : string) :
  NoDup (map fst table) -> In (k, v) table -> dict_get table k = Some v.
Proof.
  induction table as [|[k' v'] rest IH]; simpl; intros Hnd Hin; [tauto|].
  apply NoDup_cons in Hnd as [Hk' Hnd].
  destruct Hin as [Heq | Hin].
  - injection Heq as -> ->. rewrite String.eqb_refl. reflexivity.
  - destruct (String.eqb_spec k k') as [-> | _]; [|auto].
    exfalso. apply Hk'. apply list_elem_of_In.
    change k' with (fst (k', v)). apply in_map with (f := fst) in Hin.
    apply list_elem_of_In. apply list_elem_of_In in Hin. exact Hin.
Qed.

Lemma dict_get_None (table : list (string * string)) (k : string) :
  (forall v, ~ In (k, v) table) -> dict_get table k = None.
Proof.
  induction table as [|[k' v'] rest IH]; simpl; intros H; [reflexivity|].
  destruct (String.eqb_spec k k') as [-> | _].
  - exfalso. apply (H v'). left. reflexivity.
  - apply IH. intros v Hin. apply (H v). right. exact Hin.
Qed.

Lemma partial_scan_first (l1 l2 : list (string * string)) (k v tz_str : string) :
  (forall k' v', In (k', v') l1 -> partial_match tz_str k' = false) ->
  partial_match tz_str k = true ->
  partial_scan (l1 ++ (k, v) :: l2) tz_str = v.
Proof.
  induction l1 as [|[k1 v1] l1 IH]; simpl; intros Hbefore Hk.
  - rewrite Hk. reflexivity.
  - rewrite (Hbefore k1 v1) by (left; reflexivity).
    apply IH; [|exact Hk]. intros k' v' Hin. apply (Hbefore k' v'). right. exact Hin.
Qed.

Lemma partial_scan_none (table : list (string * string)) (tz_str : string) :
  (forall k v, In (k, v) table -> partial_match tz_str k = false) ->
  partial_scan table tz_str = "UTC".
Proof.
  induction table as [|[k1 v1] rest IH]; simpl; intros H; [reflexivity|].
  rewrite (H k1 v1) by (left; reflexivity).
  apply IH. intros k v Hin. apply (H k v). right. exact Hin.
Qed.

Lemma TIMEZONE_MAPPINGS_keys_NoDup : NoDup (map fst TIMEZONE_MAPPINGS).
Proof. apply (bool_decide_unpack _). vm_compute. reflexivity. Qed.

(** C7: [normalize_timezone] is a total function that resolves in order:
    the empty input gives "UTC"; an input the timezone database knows is
    returned unchanged; an exact key of the table gives its mapped value;
    otherwise the first entry, in the order of the table, whose key occurs
    in the input or in which the input occurs (case ignored) gives its
    mapped value; otherwise "UTC".  With "Eastern Standard Time" and
    "Nonexistent Time" not being identifiers of the database, the first
    normalises to "America/New_York" and the second to "UTC". *)
Theorem normalize_timezone_resolution (known : string -> bool) (raw : string) :
  (raw = "" -> normalize_timezone known raw = "UTC")
  /\ (raw <> "" -> known raw = true -> normalize_timezone known raw = raw)
  /\ (raw <> "" -> known raw = false ->
      forall v, In (raw, v) TIMEZONE_MAPPINGS -> normalize_timezone known raw = v)
  /\ (raw <> "" -> known raw = false ->
      (forall v, ~ In (raw, v) TIMEZONE_MAPPINGS) ->
      forall l1 k v l2,
        TIMEZONE_MAPPINGS = (l1 ++ (k, v) :: l2)%list ->
        (forall k' v', In (k', v') l1 -> ~ (occurs_ci k' raw \/ occurs_ci raw k')) ->
        occurs_ci k raw \/ occurs_ci raw k ->
        normalize_timezone known raw = v)
  /\ (raw <> "" -> known raw = false ->
      (forall k v, In (k, v) TIMEZONE_MAPPINGS ->
                   k <> raw /\ ~ (occurs_ci k raw \/ occurs_ci raw k)) ->
      normalize_timezone known raw = "UTC")
  /\ (known "Eastern Standard Time" = false ->
      normalize_timezone known "Eastern Standard Time" = "America/New_York")
  /\ normalize_timezone known "" = "UTC"
  /\ (known "Nonexistent Time" = false ->
      normalize_timezone known "Nonexistent Time" = "UTC").
Proof.
  unfold normalize_timezone.
  repeat apply conj.
  - intros ->. reflexivity.
  - intros Hne Hk. apply nonempty_true in Hne. rewrite Hne, Hk. reflexivity.
  - intros Hne Hk v Hin. apply nonempty_true in Hne. rewrite Hne, Hk. cbn [negb].
    rewrite (dict_get_In _ _ v TIMEZONE_MAPPINGS_keys_NoDup Hin). reflexivity.
  - intros Hne Hk Hno l1 k v l2 Htab Hbefore Hhere.
    apply nonempty_true in Hne. rewrite Hne, Hk. cbn [negb].
    rewrite (dict_get_None _ _ Hno), Htab.
    apply partial_scan_first.
    + intros k' v' Hin. destruct (partial_match raw k') eqn:E; [|reflexivity].
      exfalso. apply (Hbefore k' v' Hin). apply partial_match_spec. exact E.
    + apply partial_match_spec. exact Hhere.
  - intros Hne Hk Hno. apply nonempty_true in Hne. rewrite Hne, Hk. cbn [negb].
    rewrite dict_get_None.
    + apply partial_scan_none. intros k v Hin.
      destruct (partial_match raw k) eqn:E; [|reflexivity].
      exfalso. destruct (Hno k v Hin) as [_ Hocc]. apply Hocc.
      apply partial_match_spec. exact E.
    + intros v Hin. destruct (Hno raw v Hin) as [Hkey _]. apply Hkey. reflexivity.
  - intros Hk. cbn [PyStr.nonempty negb]. rewrite Hk. vm_compute. reflexivity.
  - reflexivity.
  - intros Hk. cbn [PyStr.nonempty negb]. rewrite Hk. vm_compute. reflexivity.
Qed.

Lemma normalize_timezone_resolution_witness :
  normalize_timezone (fun _ => false) "Eastern Standard Time" = "America/New_York"
  /\ normalize_timezone (fun _ => false) "Nonexistent Time" = "UTC"
  /\ normalize_timezone (fun s => String.eqb s "Europe/Oslo") "Europe/Oslo"
     = "Europe/Oslo".
Proof.
  split; [|split].
  - apply (normalize_timezone_resolution (fun _ => false) "Eastern Standard Time").
    reflexivity.
  - apply (normalize_timezone_resolution (fun _ => false) "Nonexistent Time").
    reflexivity.
  - destruct (normalize_timezone_resolution
                (fun s => String.eqb s "Europe/Oslo") "Europe/Oslo")
      as (_ & Hknown & _).
    apply Hknown; [discriminate | reflexivity].
Defined.

(** ** The translator, field by field *)

Section TranslatorFacts.

Variable pytz_known : string -> bool.
Variable to_ical : VEvent -> string.
Variable md5_hexdigest : string -> string.

Local Abbreviation convert :=
  (_convert_vevent_to_google_event pytz_known to_ical md5_hexdigest).

(** A returned event carries the fields computed by the helper functions,
    and the record had a start whose end could be computed. *)
Lemma convert_returns_event st vevent calendar_tz include_attendees event st' :
  convert st vevent calendar_tz include_attendees = (ReturnsEvent event, st') ->
  exists start end_dt end_tz,
    dtstart vevent = Some start
    /\ event_end pytz_known vevent start
         (_get_timezone pytz_known start calendar_tz) calendar_tz
       = inr (end_dt, end_tz)
    /\ iCalUID event = event_uid to_ical md5_hexdigest vevent
    /\ g_summary event = event_summary vevent
    /\ g_start event
       = (if is_plain_date (dt start) then GDate (date_of (dt start))
          else GDateTime (dt start) (_get_timezone pytz_known start calendar_tz))
    /\ g_end event
       = (if is_plain_date (dt start) then GDate (date_of end_dt)
          else GDateTime end_dt end_tz)
    /\ g_reminders event = event_reminders vevent
    /\ outlookUID event = (if truthy (uid vevent) then uid vevent else None)
    /\ g_attendees event
       = (match (if include_attendees then fst (attendee_loop st (attendee vevent))
                 else [])
          with [] => None | l => Some l end)
    /\ st' = (if include_attendees then snd (attendee_loop st (attendee vevent))
              else st).
Proof.
  unfold _convert_vevent_to_google_event. intros H.
  destruct (dtstart vevent) as [start|]; [|discriminate].
  destruct (event_end _ _ _ _ _) as [e|[end_dt end_tz]] eqn:Eend; [discriminate|].
  exists start, end_dt, end_tz.
  destruct (event_recurrence vevent) as [e|recurrence];
    [destruct (is_plain_date (dt start)); discriminate|].
  destruct (is_plain_date (dt start));
    destruct include_attendees;
    try destruct (attendee_loop st (attendee vevent)) as [l st2];
    (destruct (event_sequence vevent) as [e|sequence_number]; [discriminate|]);
    injection H as <- <-; cbn; repeat apply conj;
    first [exact Eend | reflexivity | destruct l; reflexivity].
Qed.

Lemma convert_no_start st vevent calendar_tz include_attendees :
  dtstart vevent = None ->
  convert st vevent calendar_tz include_attendees = (ReturnsNone, st).
Proof. unfold _convert_vevent_to_google_event. intros ->. reflexivity. Qed.

End TranslatorFacts.

(** ** Reminders *)

Lemma rkey_inj (r1 r2 : Reminder) : rkey r1 = rkey r2 -> r1 = r2.
Proof. destruct r1, r2. unfold rkey. simpl. congruence. Qed.

Lemma key_eqb_eq (k1 k2 : Method * Z) : key_eqb k1 k2 = true <-> k1 = k2.
Proof.
  destruct k1 as [m1 n1], k2 as [m2 n2]. unfold key_eqb. simpl.
  rewrite andb_true_iff, Z.eqb_eq. split.
  - intros [Hm ->]. destruct m1, m2; simpl in Hm; congruence.
  - intros H. injection H as -> ->. split; [destruct m2|]; reflexivity.
Qed.

Lemma seen_In (k : Method * Z) (seen : list (Method * Z)) :
  existsb (key_eqb k) seen = true <-> In k seen.
Proof.
  rewrite existsb_exists. split.
  - intros [k' [Hin Hk]]. apply key_eqb_eq in Hk. subst. exact Hin.
  - intros Hin. exists k. split; [exact Hin | apply key_eqb_eq; reflexivity].
Qed.

Lemma seen_not_In (k : Method * Z) (seen : list (Method * Z)) :
  existsb (key_eqb k) seen = false <-> ~ In k seen.
Proof. rewrite <- seen_In. destruct (existsb _ _); split; congruence. Qed.

Lemma collect_reminders_omap (components : list VAlarm) :
  collect_reminders components = omap alarm_reminder components.
Proof.
  induction components as [|c rest IH]; simpl; [reflexivity|].
  destruct (alarm_reminder c); rewrite IH; reflexivity.
Qed.

Lemma Reminder_eq_dec_aux (a b : Reminder) : a = b \/ a <> b.
Proof.
  destruct a as [m1 n1], b as [m2 n2].
  destruct (Z.eq_dec n1 n2) as [->|Hn]; [|right; congruence].
  destruct m1, m2; first [left; reflexivity | right; congruence].
Qed.

Lemma unique_loop_In (rs : list Reminder) :
  forall seen r,
    In r (unique_loop seen rs) <-> In r rs /\ ~ In (rkey r) seen.
Proof.
  induction rs as [|a rs IH]; intros seen r; simpl; [tauto|].
  fold (rkey a). destruct (existsb (key_eqb (rkey a)) seen) eqn:E.
  - apply seen_In in E. rewrite IH. split.
    + tauto.
    + intros [[-> | Hin] Hns]; tauto.
  - apply seen_not_In in E. simpl. rewrite IH. simpl. split.
    + intros [-> | [Hin Hns]]; [tauto|]. split; [tauto|]. tauto.
    + intros [[-> | Hin] Hns]; [tauto|].
      destruct (Reminder_eq_dec_aux a r) as [->|Hne]; [tauto|].
      right. split; [exact Hin|]. intros [Hk | Hk]; [|tauto].
      apply Hne. apply rkey_inj. exact Hk.
Qed.

Lemma unique_loop_NoDup (rs : list Reminder) :
  forall seen, NoDup (unique_loop seen rs).
Proof.
  induction rs as [|a rs IH]; intros seen; simpl; [constructor|].
  destruct (existsb _ seen); [apply IH|].
  apply NoDup_cons. split; [|apply IH].
  rewrite list_elem_of_In, unique_loop_In. intros [_ Hns]. apply Hns. left. reflexivity.
Qed.

Lemma unique_loop_sublist (rs : list Reminder) :
  forall seen, sublist (unique_loop seen rs) rs.
Proof.
  induction rs as [|a rs IH]; intros seen; simpl; [constructor|].
  destruct (existsb _ seen).
  - apply sublist_cons. apply IH.
  - apply sublist_skip. apply IH.
Qed.

(** First-seen order: the first occurrence of a reminder is kept, right
    after what is kept of the reminders before it. *)
Lemma unique_loop_first (l : list Reminder) :
  forall seen r l',
    ~ In r l -> ~ In (rkey r) seen ->
    exists u2,
      unique_loop seen (l ++ r :: l') = (unique_loop seen l ++ r :: u2)%list.
Proof.
  induction l as [|a l IH]; intros seen r l' Hnl Hns; simpl.
  - fold (rkey r). apply seen_not_In in Hns. rewrite Hns. eauto.
  - fold (rkey a). destruct (existsb (key_eqb (rkey a)) seen) eqn:E.
    + apply IH; [|exact Hns]. intros Hin. apply Hnl. right. exact Hin.
    + destruct (IH (rkey a :: seen) r l') as [u2 Hu2].
      * intros Hin. apply Hnl. right. exact Hin.
      * intros [Hk | Hk]; [|tauto]. apply Hnl. left. apply rkey_inj. exact Hk.
      * exists u2. simpl. rewrite Hu2. reflexivity.
Qed.

Lemma alarm_reminder_minutes (component : VAlarm) (r : Reminder) :
  alarm_reminder component = Some r -> 0 <= minutes r <= 40320.
Proof.
  unfold alarm_reminder.
  destruct (trigger component) as [[seconds | at_]|]; try discriminate.
  intros H. injection H as <-. simpl.
  destruct (Z.ltb_spec 40320 (Z.abs (Z.quot seconds 60))); lia.
Qed.

Lemma alarm_reminder_spec (component : VAlarm) :
  alarm_reminder component
  = match trigger component with
    | Some (TrigRelative seconds) =>
        Some (mkReminder
                (if String.eqb (PyStr.upper (default "" (action component))) "EMAIL"
                 then email else popup)
                (Z.min (Z.abs (Z.quot seconds 60)) 40320))
    | _ => None
    end.
Proof.
  unfold alarm_reminder.
  destruct (trigger component) as [[seconds | at_]|]; try reflexivity.
  f_equal. f_equal.
  - destruct (action component) as [[|c s]|]; reflexivity.
  - destruct (Z.ltb_spec 40320 (Z.abs (Z.quot seconds 60))); lia.
Qed.

(** C8: the reminders of a translated event come from the alarms with a
    relative trigger: the offset's absolute value in whole minutes, capped
    at 40320; method "email" when the action is EMAIL whatever its case,
    "popup" otherwise; duplicates of a (method, minutes) pair dropped with
    the first-seen order kept; at most 5 entries.  The list popup 30,
    popup 30, email 30 becomes popup 30, email 30. *)
Theorem reminders_normalized pytz_known to_ical md5_hexdigest
    st vevent calendar_tz include_attendees event st' :
  _convert_vevent_to_google_event pytz_known to_ical md5_hexdigest
    st vevent calendar_tz include_attendees = (ReturnsEvent event, st') ->
  let rs := omap alarm_reminder (alarms vevent) in
  let out := default [] (g_reminders event) in
  (forall a,
      alarm_reminder a
      = match trigger a with
        | Some (TrigRelative seconds) =>
            Some (mkReminder
                    (if String.eqb (PyStr.upper (default "" (action a))) "EMAIL"
                     then email else popup)
                    (Z.min (Z.abs (Z.quot seconds 60)) 40320))
        | _ => None
        end)
  /\ (exists u,
        out = firstn 5 u
        /\ NoDup u
        /\ sublist u rs
        /\ (forall r, In r rs -> In r u)
        /\ (forall l r l', rs = (l ++ r :: l')%list -> ~ In r l ->
              exists u1 u2, u = (u1 ++ r :: u2)%list
                            /\ forall x, In x u1 <-> In x l))
  /\ (length out <= 5)%nat
  /\ NoDup out
  /\ (forall r, In r out -> 0 <= minutes r <= 40320)
  /\ firstn 5 (unique_loop [] [mkReminder popup 30; mkReminder popup 30;
                               mkReminder email 30])
     = [mkReminder popup 30; mkReminder email 30].
Proof.
  intros H rs out.
  apply convert_returns_event in H
    as (start & end_dt & end_tz & _ & _ & _ & _ & _ & _ & Hrem & _).
  assert (Hout : out = firstn 5 (unique_loop [] rs)).
  { unfold out, rs. rewrite Hrem. unfold event_reminders.
    rewrite collect_reminders_omap.
    destruct (omap alarm_reminder (alarms vevent)); reflexivity. }
  assert (Hnd : NoDup (unique_loop [] rs)) by apply unique_loop_NoDup.
  repeat apply conj.
  - apply alarm_reminder_spec.
  - exists (unique_loop [] rs). repeat apply conj.
    + exact Hout.
    + exact Hnd.
    + apply unique_loop_sublist.
    + intros r Hin. apply unique_loop_In. split; [exact Hin | simpl; tauto].
    + intros l r l' Hrs Hnl.
      destruct (unique_loop_first l [] r l' Hnl) as [u2 Hu2]; [simpl; tauto|].
      exists (unique_loop [] l), u2. split; [rewrite Hrs; exact Hu2|].
      intros x. rewrite unique_loop_In. simpl. tauto.
  - rewrite Hout. rewrite length_firstn. lia.
  - rewrite Hout. eapply sublist_NoDup; [exact Hnd | apply sublist_take].
  - intros r Hin. rewrite Hout in Hin. apply list_elem_of_In in Hin.
    apply (subseteq_take 5) in Hin.
    apply list_elem_of_In in Hin.
    apply unique_loop_In in Hin as [Hin _].
    unfold rs in Hin. apply list_elem_of_In in Hin.
    apply list_elem_of_omap in Hin as (a & _ & Ha).
    eapply alarm_reminder_minutes. exact Ha.
  - reflexivity.
Qed.

Lemma reminders_normalized_witness :
  exists event st',
    _convert_vevent_to_google_event no_pytz sample_to_ical sample_md5
      stats0 alarms_vevent "UTC" true = (ReturnsEvent event, st')
    /\ g_reminders event = Some [mkReminder popup 30; mkReminder email 30]
    /\ NoDup (default [] (g_reminders event)).
Proof.
  eexists. eexists. split; [reflexivity|]. split; [reflexivity|].
  apply (reminders_normalized no_pytz sample_to_ical sample_md5
           stats0 alarms_vevent "UTC" true _ _ eq_refl).
Defined.

(** ** End of an event *)

(** The ordinals agree with Python's at both ends of the range of dates. *)
Lemma ymd2ord_range :
  ymd2ord 1 1 1 = 1 /\ ymd2ord 9999 12 31 = MAXORDINAL
  /\ ymd2ord 2024 2 29 + 1 = ymd2ord 2024 3 1.
Proof. repeat split; reflexivity. Qed.

Lemma date_add_one_day (o : Z) (v : DtValue) :
  dt_add (PyDate o) 86400 = inr v -> v = PyDate (o + 1).
Proof.
  unfold dt_add, date_add. change (86400 / 86400) with 1.
  destruct (_ && _); intros H; [injection H as <-; reflexivity | discriminate].
Qed.

Lemma datetime_add_one_hour (s : Z) (tz : option string) (v : DtValue) :
  dt_add (PyDateTime s tz) 3600 = inr v -> v = PyDateTime (s + 3600) tz.
Proof.
  unfold dt_add, datetime_add.
  destruct (_ && _); intros H; [injection H as <-; reflexivity | discriminate].
Qed.

(** C6: a translated event always has an end, resolved in this order: the
    DTEND when the record has one; else the start plus the DURATION when
    the record has one; else the start plus one day for an all-day start
    and plus one hour for a timed start.  An all-day record starting on
    2024-01-10 with neither gets the end 2024-01-11. *)
Theorem end_resolution pytz_known to_ical md5_hexdigest
    st vevent calendar_tz include_attendees event st' :
  _convert_vevent_to_google_event pytz_known to_ical md5_hexdigest
    st vevent calendar_tz include_attendees = (ReturnsEvent event, st') ->
  (exists start end_dt,
      dtstart vevent = Some start
      /\ match dtend vevent, duration vevent with
         | Some e, _ => end_dt = dt e
         | None, Some d => dt_add (dt start) d = inr end_dt
         | None, None =>
             match dt start with
             | PyDate o => end_dt = PyDate (o + 1)
             | PyDateTime s tz => end_dt = PyDateTime (s + 3600) tz
             end
         end
      /\ match dt start with
         | PyDate _ => g_end event = GDate (date_of end_dt)
         | PyDateTime _ _ => exists end_tz, g_end event = GDateTime end_dt end_tz
         end)
  /\ (exists event0 st0,
        _convert_vevent_to_google_event pytz_known to_ical md5_hexdigest
          stats0 allday_vevent calendar_tz include_attendees
        = (ReturnsEvent event0, st0)
        /\ g_start event0 = GDate (ymd2ord 2024 1 10)
        /\ g_end event0 = GDate (ymd2ord 2024 1 11)).
Proof.
  intros H. split.
  - apply convert_returns_event in H
      as (start & end_dt & end_tz & Hstart & Hend & _ & _ & _ & Hgend & _).
    exists start, end_dt. split; [exact Hstart|]. split.
    + unfold event_end in Hend.
      destruct (dtend vevent) as [e|].
      * injection Hend as <- _. reflexivity.
      * destruct (duration vevent) as [d|].
        -- destruct (dt_add (dt start) d); [discriminate|].
           injection Hend as ->. reflexivity.
        -- destruct (dt start) as [o | s tz]; cbn [is_plain_date] in Hend.
           ++ destruct (dt_add (PyDate o) 86400) as [|v] eqn:E; [discriminate|].
              injection Hend as <- _. apply date_add_one_day. exact E.
           ++ destruct (dt_add (PyDateTime s tz) 3600) as [|v] eqn:E; [discriminate|].
              injection Hend as <- _. apply datetime_add_one_hour. exact E.
    + rewrite Hgend. destruct (dt start); cbn [is_plain_date]; eauto.
  - destruct include_attendees; eexists; eexists;
      (split; [reflexivity | split; reflexivity]).
Qed.

Lemma end_resolution_witness :
  exists event st',
    _convert_vevent_to_google_event no_pytz sample_to_ical sample_md5
      stats0 allday_vevent "America/Chicago" true = (ReturnsEvent event, st')
    /\ g_end event = GDate 738896
    /\ ymd2ord 2024 1 11 = 738896.
Proof.
  destruct (end_resolution no_pytz sample_to_ical sample_md5
              stats0 allday_vevent "America/Chicago" true _ _ eq_refl)
    as [_ (event0 & st0 & Hrun & _ & Hend)].
  exists event0, st0. split; [exact Hrun|]. split; [|reflexivity].
  rewrite Hend. reflexivity.
Defined.

(** ** Title *)

Lemma lowered_text (o : option string) :
  match o with
  | Some d => if PyStr.nonempty d then PyStr.lower d else ""
  | None => ""
  end = PyStr.lower (default "" o).
Proof. destruct o as [[|c d]|]; reflexivity. Qed.

Lemma mentions_lowered (keyword : string) (o : option string) :
  PyStr.contains keyword "" = false ->
  mentions keyword o = PyStr.contains keyword (PyStr.lower (default "" o)).
Proof.
  intros H. destruct o as [d|]; cbn [mentions default PyStr.lower];
    [reflexivity | rewrite H; reflexivity].
Qed.

Lemma append_assoc (a b c : string) : (a +:+ b) +:+ c = a +:+ (b +:+ c).
Proof.
  induction a as [|x a IH]; [reflexivity|].
  change (String x ((a +:+ b) +:+ c) = String x (a +:+ b +:+ c)).
  rewrite IH. reflexivity.
Qed.

Lemma contains_microsoft_teams (s : string) :
  PyStr.contains "microsoft teams" s = true -> PyStr.contains "teams" s = true.
Proof.
  rewrite !contains_spec. intros (pre & post & ->).
  exists (pre +:+ "microsoft "), post.
  rewrite append_assoc. reflexivity.
Qed.

Lemma default_summary_priority (vevent : VEvent) :
  default_summary vevent
  = first_match [rule_platform; rule_busystatus; rule_transparency] vevent "Busy".
Proof.
  unfold default_summary, first_match, rule_platform, platform_titles.
  cbn [find fst snd].
  rewrite !lowered_text.
  rewrite !mentions_lowered by reflexivity.
  set (D := PyStr.lower (default "" (description vevent))).
  set (L := PyStr.lower (default "" (location vevent))).
  pose proof (contains_microsoft_teams D) as Hms.
  destruct (PyStr.contains "zoom" D); cbn [orb]; [reflexivity|].
  destruct (PyStr.contains "zoom" L); cbn [orb]; [reflexivity|].
  destruct (PyStr.contains "teams" D); cbn [orb]; [reflexivity|].
  destruct (PyStr.contains "teams" L); cbn [orb]; [reflexivity|].
  destruct (PyStr.contains "microsoft teams" D);
    [specialize (Hms eq_refl); discriminate|].
  destruct (PyStr.contains "webex" D); cbn [orb]; [reflexivity|].
  destruct (PyStr.contains "webex" L); cbn [orb]; [reflexivity|].
  destruct (PyStr.contains "meet.google" D); cbn [orb]; [reflexivity|].
  destruct (PyStr.contains "meet.google" L); cbn [orb]; [reflexivity|].
  clear Hms D L.
  unfold rule_busystatus, rule_transparency, busy_title.
  destruct (busystatus vevent) as [[|c b]|]; cbn [truthy PyStr.nonempty default];
    try reflexivity;
    destruct (transp vevent) as [[|c' t]|];
    cbn [truthy PyStr.nonempty default andb]; try reflexivity;
    destruct (String.eqb _ "TRANSPARENT"); reflexivity.
Qed.

Lemma event_summary_priority (vevent : VEvent) :
  event_summary vevent = title_by_priority vevent.
Proof.
  unfold event_summary, title_by_priority.
  cbn [first_match]. unfold rule_title.
  destruct (summary vevent) as [[|c s]|].
  - apply default_summary_priority.
  - cbn [PyStr.nonempty andb].
    destruct (PyStr.nonempty (PyStr.strip (String c s)));
      [reflexivity | apply default_summary_priority].
  - apply default_summary_priority.
Qed.

Lemma first_match_nonempty rules vevent fallback :
  Forall (fun rule => forall t, rule vevent = Some t -> t <> "") rules ->
  fallback <> "" -> first_match rules vevent fallback <> "".
Proof.
  induction 1 as [|rule rest Hrule _ IH]; intros Hf; simpl; [exact Hf|].
  destruct (rule vevent) as [t|] eqn:E; [apply Hrule; reflexivity | apply IH; exact Hf].
Qed.

Lemma strip_nonempty (s : string) :
  PyStr.nonempty (PyStr.strip s) = true -> s <> "".
Proof. intros H ->. discriminate. Qed.

Lemma title_by_priority_nonempty (vevent : VEvent) :
  title_by_priority vevent <> "".
Proof.
  apply first_match_nonempty; [|discriminate].
  repeat apply Forall_cons_2; [| | | |apply Forall_nil_2].
  - unfold rule_title. intros t.
    destruct (summary vevent) as [s|]; [|discriminate].
    destruct (PyStr.nonempty (PyStr.strip s)) eqn:E; [|discriminate].
    intros H. injection H as <-. apply (strip_nonempty _ E).
  - unfold rule_platform. intros t.
    destruct (find _ platform_titles) as [kt|] eqn:E; [|discriminate].
    intros H. injection H as <-.
    apply find_some in E as [Hin _].
    unfold platform_titles in Hin. simpl in Hin.
    intuition (subst; discriminate).
  - unfold rule_busystatus, busy_title. intros t.
    destruct (busystatus vevent) as [b|]; [|discriminate].
    destruct (PyStr.nonempty b); [|discriminate].
    intros H. injection H as <-.
    repeat (destruct (String.eqb _ _); [discriminate|]). discriminate.
  - unfold rule_transparency. intros t.
    destruct (transp vevent) as [x|]; [|discriminate].
    destruct (String.eqb _ _); [|discriminate].
    intros H. injection H as <-. discriminate.
Qed.

(** C5 (amended): the title of a translated event is never empty and is
    chosen by strict priority, first match winning: (1) the explicit title
    unless blank after trimming; (2) the first platform keyword, in the
    order zoom, teams, webex, meet.google, found in the description or
    location whatever their case; (3) the busy status, when its value is
    not empty, mapped FREE, TENTATIVE, OOF (whatever the case) to "Free",
    "Tentative", "Out of Office" and anything else to "Busy"; (4)
    transparency equal to TRANSPARENT gives "Free"; (5) "Busy".  A record
    with an explicit title keeps it even with "zoom" in its location. *)
Theorem title_resolution pytz_known to_ical md5_hexdigest
    st vevent calendar_tz include_attendees event st' :
  _convert_vevent_to_google_event pytz_known to_ical md5_hexdigest
    st vevent calendar_tz include_attendees = (ReturnsEvent event, st') ->
  g_summary event = title_by_priority vevent
  /\ g_summary event <> ""
  /\ (forall t, summary vevent = Some t ->
                PyStr.nonempty (PyStr.strip t) = true ->
                g_summary event = t)
  /\ title_by_priority titled_zoom_vevent = "Budget review".
Proof.
  intros H.
  apply convert_returns_event in H
    as (start & end_dt & end_tz & _ & _ & _ & Hsum & _).
  rewrite Hsum, event_summary_priority.
  split; [reflexivity|]. split; [apply title_by_priority_nonempty|].
  split; [|reflexivity].
  intros t Ht Hstrip. unfold title_by_priority. cbn [first_match].
  unfold rule_title. rewrite Ht, Hstrip. reflexivity.
Qed.

Lemma title_resolution_witness :
  exists event st',
    _convert_vevent_to_google_event no_pytz sample_to_ical sample_md5
      stats0 titled_zoom_vevent "UTC" true = (ReturnsEvent event, st')
    /\ g_summary event = "Budget review".
Proof.
  eexists. eexists. split; [reflexivity|].
  destruct (title_resolution no_pytz sample_to_ical sample_md5
              stats0 titled_zoom_vevent "UTC" true _ _ eq_refl)
    as (_ & _ & Hkeep & _).
  apply Hkeep; reflexivity.
Defined.

(** C5 as stated fails: with a busy status whose value is empty and
    TRANSP:TRANSPARENT, rule (3) as worded gives "Busy", and the
    translator gives "Free". *)
Lemma title_as_stated_fails :
  exists event st',
    _convert_vevent_to_google_event no_pytz sample_to_ical sample_md5
      stats0 empty_busystatus_vevent "UTC" true = (ReturnsEvent event, st')
    /\ g_summary event = "Free"
    /\ title_as_stated empty_busystatus_vevent = "Busy"
    /\ g_summary event <> title_as_stated empty_busystatus_vevent.
Proof.
  eexists. eexists. split; [reflexivity|].
  split; [reflexivity|]. split; [reflexivity|].
  vm_compute. discriminate.
Qed.

(** ** Identifier *)

(** C1 (amended): identifier resolution is deterministic.  A record whose
    UID is not empty gets that UID as both iCalUID and the outlookUID
    provenance field; any other record (no UID, or a UID with an empty
    value) gets as iCalUID the digest of its serialisation followed by
    "@imported", and no provenance field.  Two translations of records
    with the same serialisation (and the same UID property) yield the same
    iCalUID, whatever the statistics, calendar zone and flags of the two
    calls. *)
Theorem identifier_resolution pytz_known to_ical md5_hexdigest
    st vevent calendar_tz include_attendees event st' :
  _convert_vevent_to_google_event pytz_known to_ical md5_hexdigest
    st vevent calendar_tz include_attendees = (ReturnsEvent event, st') ->
  (forall u, uid vevent = Some u -> u <> "" ->
             iCalUID event = u /\ outlookUID event = Some u)
  /\ (truthy (uid vevent) = false ->
      iCalUID event = md5_hexdigest (to_ical vevent) +:+ "@imported"
      /\ outlookUID event = None)
  /\ (forall st2 vevent2 calendar_tz2 include_attendees2 event2 st2',
        _convert_vevent_to_google_event pytz_known to_ical md5_hexdigest
          st2 vevent2 calendar_tz2 include_attendees2
        = (ReturnsEvent event2, st2') ->
        to_ical vevent2 = to_ical vevent ->
        uid vevent2 = uid vevent
        \/ (truthy (uid vevent) = false /\ truthy (uid vevent2) = false) ->
        iCalUID event2 = iCalUID event).
Proof.
  intros H.
  apply convert_returns_event in H
    as (start & end_dt & end_tz & _ & _ & Hid & _ & _ & _ & _ & Hprov & _).
  assert (Hfalsy : forall v, truthy (uid v) = false ->
            event_uid to_ical md5_hexdigest v
            = md5_hexdigest (to_ical v) +:+ "@imported").
  { intros v Hv. unfold event_uid.
    destruct (uid v) as [[|c u]|]; [reflexivity | discriminate | reflexivity]. }
  repeat apply conj.
  - intros u Hu Hne. rewrite Hid, Hprov. unfold event_uid. rewrite Hu.
    apply nonempty_true in Hne. cbn [truthy]. rewrite Hne. split; reflexivity.
  - intros Hu. rewrite Hid, Hprov, Hu. split; [apply Hfalsy; exact Hu | reflexivity].
  - intros st2 vevent2 tz2 inc2 event2 st2' H2 Hraw Huid.
    apply convert_returns_event in H2
      as (start2 & end_dt2 & end_tz2 & _ & _ & Hid2 & _).
    rewrite Hid, Hid2. destruct Huid as [Huid | [Hu Hu2]].
    + unfold event_uid. rewrite Huid, Hraw. reflexivity.
    + rewrite (Hfalsy _ Hu), (Hfalsy _ Hu2), Hraw. reflexivity.
Qed.

Lemma identifier_resolution_witness :
  exists event st',
    _convert_vevent_to_google_event no_pytz sample_to_ical sample_md5
      stats0 uid_vevent "UTC" true = (ReturnsEvent event, st')
    /\ iCalUID event = "040000008200E00074C5B7101A82E008"
    /\ outlookUID event = Some "040000008200E00074C5B7101A82E008".
Proof.
  eexists. eexists. split; [reflexivity|].
  destruct (identifier_resolution no_pytz sample_to_ical sample_md5
              stats0 uid_vevent "UTC" true _ _ eq_refl) as (Huid & _).
  apply Huid; [reflexivity | discriminate].
Defined.

(** C1 as stated fails: a record that has a UID property, with an empty
    value, does not get that value as iCalUID and provenance; it gets the
    derived identifier and no provenance. *)
Lemma identifier_as_stated_fails :
  exists event st',
    _convert_vevent_to_google_event no_pytz sample_to_ical sample_md5
      stats0 empty_uid_vevent "UTC" true = (ReturnsEvent event, st')
    /\ uid empty_uid_vevent = Some ""
    /\ iCalUID event <> ""
    /\ iCalUID event
       = sample_md5 (sample_to_ical empty_uid_vevent) +:+ "@imported"
    /\ outlookUID event <> Some "".
Proof.
  eexists. eexists. split; [reflexivity|]. split; [reflexivity|].
  split; [vm_compute; discriminate|]. split; [reflexivity|].
  vm_compute. discriminate.
Qed.

(** ** The duplicate set fetched from the destination *)

Lemma add_remote_elem (uids : gset string) (r : RemoteEvent) (id : string) :
  id ∈ add_remote uids r <-> id ∈ uids \/ known_as id r.
Proof.
  unfold add_remote, known_as.
  destruct (r_iCalUID r) as [a|], (r_outlookUID r) as [b|];
    cbn [truthy default];
    repeat match goal with
           | |- context [PyStr.nonempty ?s] =>
               let E := fresh "E" in
               destruct (PyStr.nonempty s) eqn:E;
               [apply nonempty_true in E | apply nonempty_false in E; subst s]
           end;
    rewrite ?elem_of_union, ?elem_of_singleton;
    split; intros H;
    repeat match goal with
           | H : _ \/ _ |- _ => destruct H
           | H : _ /\ _ |- _ => destruct H
           | H : Some _ = Some _ |- _ => injection H as H
           end;
    subst; try congruence; try discriminate; auto 6.
Qed.

Lemma fold_add_remote_elem (items : list RemoteEvent) :
  forall (uids : gset string) (id : string),
    id ∈ fold_left add_remote items uids
    <-> id ∈ uids \/ exists r, In r items /\ known_as id r.
Proof.
  induction items as [|r items IH]; intros uids id; simpl.
  - split; [auto | intros [H | (r & [] & _)]; exact H].
  - rewrite IH, add_remote_elem. split.
    + intros [[H | H] | (r' & Hin & H)]; eauto 6.
    + intros [H | (r' & [-> | Hin] & H)]; eauto 6.
Qed.

Lemma existing_uids_loop_elem (pages : Listing) :
  forall (uids : gset string) (id : string),
    id ∈ existing_uids_loop uids pages
    <-> id ∈ uids \/ exists r, In r (fetched pages) /\ known_as id r.
Proof.
  induction pages as [|items tok next IH]; intros uids id; simpl.
  - split; [auto | intros [H | (r & [] & _)]; exact H].
  - destruct (truthy tok).
    + rewrite IH, fold_add_remote_elem. split.
      * intros [[H | (r & Hin & H)] | (r & Hin & H)]; [auto | |];
          right; exists r; (split; [apply in_or_app; auto | exact H]).
      * intros [H | (r & Hin & H)]; [auto|].
        apply in_app_or in Hin as [Hin | Hin]; eauto 6.
    + rewrite fold_add_remote_elem, app_nil_r. reflexivity.
Qed.

Lemma _get_existing_uids_elem (pages : Listing) (id : string) :
  id ∈ _get_existing_uids pages <-> exists r, In r (fetched pages) /\ known_as id r.
Proof.
  unfold _get_existing_uids. rewrite existing_uids_loop_elem. split.
  - intros [H | H]; [|exact H]. apply not_elem_of_empty in H. contradiction.
  - auto.
Qed.

(** ** One iteration of the submission loop *)

Section ImporterFacts.

Variable Srv : Type.
Variable import_ : Srv -> GEvent -> Response * Srv.

Local Abbreviation step := (import_one Srv import_).
Local Abbreviation run := (run_loop Srv import_).

Ltac step_cases L event dry :=
  unfold import_one; cbv zeta;
  destruct (_ && bool_decide (_ ∈ existing_uids L)) eqn:Edup; cbv iota;
  [| destruct dry eqn:Edry; cbv iota;
     [| destruct (import_ (srv L) event) as [[|status text|] s1] eqn:E1;
        cbv iota beta;
        [| destruct (status =? 429) eqn:E429; cbv iota;
           [ destruct (import_ s1 event) as [[|status2 text2|] s2] eqn:E2;
             cbv iota beta
           | destruct (status =? 409) eqn:E409; cbv iota;
             [| destruct ((status =? 400) && PyStr.contains STRUCTURAL_MARKER text)
                  eqn:E400; cbv iota;
                [ destruct (import_ s1 (without_participants event))
                    as [[|status2 text2|] s2] eqn:E2; cbv iota beta
                | ]]]
         |]]];
  cbn [srv existing_uids l_imported l_skipped l_errors without_att sent].

Lemma mark_elem (uids : gset string) (id x : string) :
  x ∈ mark uids id <-> x ∈ uids \/ (x = id /\ id <> "").
Proof.
  unfold mark. destruct (PyStr.nonempty id) eqn:E.
  - apply nonempty_true in E. rewrite elem_of_union, elem_of_singleton. tauto.
  - apply nonempty_false in E. subst. split; [auto | intros [H | [_ H]]; tauto].
Qed.

(** A duplicate is only counted: nothing is submitted, nothing else moves. *)
Lemma step_duplicate dry_run (L : Loop Srv) (event : GEvent) :
  iCalUID event ∈ existing_uids L ->
  step true dry_run L event = skipped_one L.
Proof.
  intros Hin. unfold import_one.
  rewrite (bool_decide_eq_true_2 _ Hin). reflexivity.
Qed.

(** The set only grows. *)
Lemma step_existing_mono skip_duplicates dry_run (L : Loop Srv) (event : GEvent) :
  forall x, x ∈ existing_uids L ->
            x ∈ existing_uids (step skip_duplicates dry_run L event).
Proof.
  intros x Hx. step_cases L event dry_run; try exact Hx; apply mark_elem; auto.
Qed.

Lemma run_existing_mono skip_duplicates dry_run (events : list GEvent) :
  forall (L : Loop Srv) x,
    x ∈ existing_uids L ->
    x ∈ existing_uids (run skip_duplicates dry_run L events).
Proof.
  unfold run_loop.
  induction events as [|e events IH]; intros L x Hx; simpl; [exact Hx|].
  apply IH. apply step_existing_mono. exact Hx.
Qed.

(** Outside dry-run, an iteration that counts an import has marked the
    event's identifier. *)
Lemma step_imported_marks skip_duplicates (L : Loop Srv) (event : GEvent) :
  l_imported (step skip_duplicates false L event) = l_imported L + 1 ->
  iCalUID event <> "" ->
  iCalUID event ∈ existing_uids (step skip_duplicates false L event).
Proof.
  intros Himp Hne. revert Himp.
  remember false as dry_run eqn:Hdry.
  step_cases L event dry_run; intros Himp;
    try lia; try discriminate; apply mark_elem; auto.
Qed.

(** The counters never decrease, and the statistic of attendees is not
    among the loop variables. *)
Lemma step_counters skip_duplicates dry_run (L : Loop Srv) (event : GEvent) :
  let L' := step skip_duplicates dry_run L event in
  l_imported L <= l_imported L' /\ l_skipped L <= l_skipped L'
  /\ l_errors L <= l_errors L'.
Proof. step_cases L event dry_run; lia. Qed.

(** An iteration bumps one counter only. *)
Lemma step_imported_not_skipped skip_duplicates dry_run
    (L : Loop Srv) (event : GEvent) :
  let L' := step skip_duplicates dry_run L event in
  l_imported L' = l_imported L + 1 ->
  l_skipped L' = l_skipped L /\ l_errors L' = l_errors L.
Proof. step_cases L event dry_run; lia. Qed.

(** What an iteration sends carries the identifier of its event, and is
    sent only when the event was not found in the set. *)
Lemma step_sent skip_duplicates dry_run (L : Loop Srv) (event body : GEvent) :
  In body (sent (step skip_duplicates dry_run L event)) ->
  In body (sent L)
  \/ (iCalUID body = iCalUID event
      /\ skip_duplicates && bool_decide (iCalUID event ∈ existing_uids L) = false).
Proof.
  step_cases L event dry_run; intros Hin; auto;
    apply in_app_or in Hin as [Hin | Hin]; auto;
    right; split; auto;
    simpl in Hin; intuition (subst; reflexivity).
Qed.

Lemma run_sent_outside dry_run (uids : gset string) (events : list GEvent) :
  forall L : Loop Srv,
    (forall x, x ∈ uids -> x ∈ existing_uids L) ->
    (forall body, In body (sent L) -> iCalUID body ∉ uids) ->
    forall body, In body (sent (run true dry_run L events)) -> iCalUID body ∉ uids.
Proof.
  unfold run_loop.
  induction events as [|e events IH]; intros L Hsub Hsent; simpl; [exact Hsent|].
  apply IH.
  - intros x Hx. apply step_existing_mono. apply Hsub. exact Hx.
  - intros body Hin. apply step_sent in Hin as [Hin | [Hid Hdup]].
    + apply Hsent. exact Hin.
    + rewrite Hid. intros Hx. apply Hsub in Hx.
      cbn [andb] in Hdup. apply bool_decide_eq_false in Hdup. contradiction.
Qed.

Lemma run_skipped_count dry_run (uids : gset string) (events : list GEvent) :
  forall L : Loop Srv,
    (forall x, x ∈ uids -> x ∈ existing_uids L) ->
    l_skipped L + Z.of_nat (length (already_known uids events))
    <= l_skipped (run true dry_run L events).
Proof.
  unfold run_loop, already_known.
  induction events as [|e events IH]; intros L Hsub; simpl; [lia|].
  assert (Hsub' : forall x, x ∈ uids ->
            x ∈ existing_uids (step true dry_run L e)).
  { intros x Hx. apply step_existing_mono. apply Hsub. exact Hx. }
  specialize (IH _ Hsub').
  destruct (bool_decide (iCalUID e ∈ uids)) eqn:E.
  - apply bool_decide_eq_true in E.
    rewrite (step_duplicate dry_run L e (Hsub _ E)) in IH |- *.
    cbn [skipped_one l_skipped length] in IH |- *. lia.
  - pose proof (step_counters true dry_run L e) as (_ & Hs & _). lia.
Qed.

End ImporterFacts.

(** ** Duplicates within a batch *)

Lemma append_empty_r (a b : string) : a +:+ b = "" -> b = "".
Proof. destruct a; [auto | discriminate]. Qed.

Lemma event_uid_nonempty to_ical md5_hexdigest (vevent : VEvent) :
  event_uid to_ical md5_hexdigest vevent <> "".
Proof.
  unfold event_uid.
  destruct (uid vevent) as [[|c u]|]; try discriminate;
    intros H; apply append_empty_r in H; discriminate.
Qed.

Lemma has_translated_id_nonempty (event : GEvent) :
  has_translated_id event -> iCalUID event <> "".
Proof. intros (to_ical & md5 & vevent & ->). apply event_uid_nonempty. Qed.

(** C2: with skip_duplicates on and dry_run off, every successful
    submission adds the event's identifier to the duplicate set before the
    next event is looked at.  So for two events of the same batch with the
    same identifier, when the submission of the first succeeds, the first
    is imported and every later one is counted as skipped without being
    submitted; for a pair the skipped counter goes up by exactly one.
    The same holds however the first came to be counted as imported (at
    once, on the retry or without its participants).
    The events carry identifiers given by the translator, and the first is
    not already at the destination. *)
Theorem duplicates_within_batch Srv import_
    (L : Loop Srv) (e1 : GEvent) (between : list GEvent) (e2 : GEvent) (s1 : Srv) :
  has_translated_id e1 ->
  iCalUID e2 = iCalUID e1 ->
  iCalUID e1 ∉ existing_uids L ->
  import_ (srv L) e1 = (Success, s1) ->
  let L1 := import_one Srv import_ true false L e1 in
  let L2 := run_loop Srv import_ true false L1 between in
  let Lpair := run_loop Srv import_ true false L [e1; e2] in
  l_imported L1 = l_imported L + 1
  /\ sent L1 = (sent L ++ [e1])%list
  /\ iCalUID e1 ∈ existing_uids L1
  /\ import_one Srv import_ true false L2 e2 = skipped_one L2
  /\ sent (run_loop Srv import_ true false L (e1 :: between ++ [e2])%list) = sent L2
  /\ l_skipped Lpair = l_skipped L + 1
  /\ l_imported Lpair = l_imported L + 1
  /\ l_errors Lpair = l_errors L
  /\ sent Lpair = (sent L ++ [e1])%list
  /\ (forall st total,
        skipped (loop_stats Srv st total Lpair) = skipped st + l_skipped L + 1)
  /\ (forall (M : Loop Srv) (event : GEvent),
        has_translated_id event ->
        l_imported (import_one Srv import_ true false M event) = l_imported M + 1 ->
        iCalUID event ∈ existing_uids (import_one Srv import_ true false M event))
  /\ (forall (M : Loop Srv) (event later : GEvent) (others : list GEvent),
        has_translated_id event -> iCalUID later = iCalUID event ->
        l_imported (import_one Srv import_ true false M event) = l_imported M + 1 ->
        let M2 := run_loop Srv import_ true false
                    (import_one Srv import_ true false M event) others in
        import_one Srv import_ true false M2 later = skipped_one M2).
Proof.
  intros Hid1 Hid Hnew Hok L1 L2 Lpair.
  pose proof (has_translated_id_nonempty e1 Hid1) as Hne.
  assert (HL1 : L1 = mkLoop s1 (mark (existing_uids L) (iCalUID e1))
                       (l_imported L + 1) (l_skipped L) (l_errors L)
                       (without_att L) (sent L ++ [e1])).
  { unfold L1, import_one. cbv zeta.
    rewrite (bool_decide_eq_false_2 _ Hnew). cbn [andb]. rewrite Hok. reflexivity. }
  assert (Hmark : iCalUID e1 ∈ existing_uids L1).
  { rewrite HL1. cbn [existing_uids]. apply mark_elem. right. auto. }
  assert (Hskip : forall M, (forall x, x ∈ existing_uids L1 -> x ∈ existing_uids M) ->
            import_one Srv import_ true false M e2 = skipped_one M).
  { intros M HM. apply step_duplicate. rewrite Hid. apply HM. exact Hmark. }
  assert (H2 : import_one Srv import_ true false L2 e2 = skipped_one L2).
  { apply Hskip. intros x Hx. apply run_existing_mono. exact Hx. }
  assert (Hpair : Lpair = skipped_one L1).
  { unfold Lpair, run_loop. cbn [fold_left]. apply Hskip. auto. }
  repeat match goal with |- _ /\ _ => split end.
  - rewrite HL1. reflexivity.
  - rewrite HL1. reflexivity.
  - exact Hmark.
  - exact H2.
  - unfold run_loop. cbn [fold_left]. rewrite fold_left_app. cbn [fold_left].
    change (sent (import_one Srv import_ true false L2 e2) = sent L2).
    rewrite H2. reflexivity.
  - rewrite Hpair, HL1. reflexivity.
  - rewrite Hpair, HL1. reflexivity.
  - rewrite Hpair, HL1. reflexivity.
  - rewrite Hpair, HL1. reflexivity.
  - intros st total. rewrite Hpair, HL1.
    cbn [loop_stats skipped skipped_one l_skipped]. lia.
  - intros M event Hev Himp. apply step_imported_marks; [exact Himp|].
    apply has_translated_id_nonempty. exact Hev.
  - intros M event later others Hev Hsame Himp M2.
    apply step_duplicate. rewrite Hsame. apply run_existing_mono.
    apply step_imported_marks; [exact Himp|].
    apply has_translated_id_nonempty. exact Hev.
Qed.

Lemma duplicates_within_batch_witness :
  let e := sample_event "abc" in
  let r := import_events Scripted scripted_import scripted_list
             stats0 (empty_listing, []) [e; e] true false in
  skipped (fst r) = 1 /\ imported (fst r) = 1 /\ sent (snd r) = [e].
Proof.
  intros e r.
  destruct (duplicates_within_batch Scripted scripted_import
              (loop_start Scripted scripted_list stats0 (empty_listing, []) true false)
              e [] e (empty_listing, []))
    as (_ & _ & _ & _ & _ & Hskipped & Himported & _ & Hsent & _).
  - exists (fun _ => ""), (fun _ => ""),
      (mkVEvent (Some "abc") None None None None None None None [] []
         None None None None None [] [] None).
    reflexivity.
  - reflexivity.
  - apply not_elem_of_empty.
  - reflexivity.
  - split; [exact Hskipped|]. split; [exact Himported | exact Hsent].
Defined.

(** ** The structural permission error *)

(** C3 (amended): when the submission of an event fails with HTTP 400 and
    the text "participantIsNeitherOrganizerNorAttendee", the importer
    submits exactly once more, a copy without organizer and attendees and
    otherwise equal (the event itself is what was sent first, and is left
    as it was).  When that retry succeeds the event is counted both as
    imported and as imported-without-attendees, and its identifier is
    marked; when it fails, the event is counted as an error only. *)
Theorem structural_fallback Srv import_
    (skip_duplicates : bool) (L : Loop Srv) (event : GEvent)
    (text : string) (s1 : Srv) :
  skip_duplicates && bool_decide (iCalUID event ∈ existing_uids L) = false ->
  import_ (srv L) event = (HttpError 400 text, s1) ->
  PyStr.contains STRUCTURAL_MARKER text = true ->
  let event_copy := without_participants event in
  let L' := import_one Srv import_ skip_duplicates false L event in
  g_organizer event_copy = None
  /\ g_attendees event_copy = None
  /\ event_copy
     = mkGEvent (iCalUID event) (g_summary event) (g_description event)
         (g_location event) (g_start event) (g_end event) (g_recurrence event)
         (g_status event) (g_transparency event) (g_visibility event)
         None None (g_reminders event) (g_sequence event) (outlookUID event)
  /\ sent L' = (sent L ++ [event; event_copy])%list
  /\ srv L' = snd (import_ s1 event_copy)
  /\ l_skipped L' = l_skipped L
  /\ (fst (import_ s1 event_copy) = Success ->
      l_imported L' = l_imported L + 1
      /\ without_att L' = without_att L + 1
      /\ l_errors L' = l_errors L
      /\ existing_uids L' = mark (existing_uids L) (iCalUID event))
  /\ (fst (import_ s1 event_copy) <> Success ->
      l_errors L' = l_errors L + 1
      /\ l_imported L' = l_imported L
      /\ without_att L' = without_att L
      /\ existing_uids L' = existing_uids L).
Proof.
  intros Hdup Hfirst Hmarker event_copy L'.
  unfold L', import_one. cbv zeta.
  rewrite Hdup, Hfirst. cbv iota beta.
  change (400 =? 429) with false. change (400 =? 409) with false.
  change (400 =? 400) with true. rewrite Hmarker. cbv iota.
  cbn [andb]. fold event_copy.
  destruct (import_ s1 event_copy) as [[|status2 text2|] s2];
    cbn [fst snd srv existing_uids l_imported l_skipped l_errors without_att sent];
    repeat apply conj; try reflexivity;
    intros H; try discriminate; try (exfalso; apply H; reflexivity);
    repeat apply conj; reflexivity.
Qed.

Lemma structural_fallback_witness :
  let e := sample_event "abc" in
  let L := loop_start Scripted scripted_list stats0
             (empty_listing, [HttpError 400 structural_text; Success]) true false in
  let L' := import_one Scripted scripted_import true false L e in
  sent L' = [e; without_participants e]
  /\ l_imported L' = 1 /\ without_att L' = 1 /\ l_errors L' = 0.
Proof.
  intros e L L'.
  destruct (structural_fallback Scripted scripted_import true L e
              structural_text (empty_listing, [Success]))
    as (_ & _ & _ & Hsent & _ & _ & Hok & _).
  - reflexivity.
  - reflexivity.
  - reflexivity.
  - destruct Hok as (Hi & Hw & He & _); [reflexivity|].
    split; [exact Hsent|]. split; [exact Hi|]. split; [exact Hw | exact He].
Defined.

(** C3 as stated fails: after a successful retry without attendees the
    event is counted as imported too. *)
Lemma structural_as_stated_fails :
  let e := sample_event "abc" in
  let r := import_events Scripted scripted_import scripted_list stats0
             (empty_listing, [HttpError 400 structural_text; Success])
             [e] true false in
  imported_without_attendees (fst r) = 1
  /\ imported (fst r) = 1
  /\ imported (fst r) <> 0
  /\ sent (snd r) = [e; without_participants e].
Proof. vm_compute. repeat split; discriminate. Qed.

(** ** The duplicate set at the start of a run *)

(** C9 (amended): in a run with skip_duplicates on and dry_run off, the
    set is filled once, before the first event, from the destination's
    listing: an identifier is in it exactly when a listed record carries
    it as its iCalUID or as its outlookUID provenance field.  An event
    whose identifier is in that set is counted as skipped and never
    submitted, wherever it comes in the batch.  In a dry run the set is
    not fetched and starts empty. *)
Theorem existing_uids_prefetched Srv import_ events_list
    (st : Stats) (s : Srv) (events : list GEvent) :
  let L0 := loop_start Srv events_list st s true false in
  let r := import_events Srv import_ events_list st s events true false in
  existing_uids L0 = _get_existing_uids (events_list s)
  /\ (forall id, id ∈ existing_uids L0
                 <-> exists rec, In rec (fetched (events_list s)) /\ known_as id rec)
  /\ (forall (L : Loop Srv) event,
        (forall x, x ∈ existing_uids L0 -> x ∈ existing_uids L) ->
        iCalUID event ∈ existing_uids L0 ->
        import_one Srv import_ true false L event = skipped_one L)
  /\ (forall done x,
        x ∈ existing_uids L0 ->
        x ∈ existing_uids (run_loop Srv import_ true false L0 done))
  /\ (forall body, In body (sent (snd r)) -> iCalUID body ∉ existing_uids L0)
  /\ skipped st + Z.of_nat (length (already_known (existing_uids L0) events))
     <= skipped (fst r)
  /\ existing_uids (loop_start Srv events_list st s true true) = ∅.
Proof.
  intros L0 r. repeat apply conj.
  - reflexivity.
  - intros id. apply _get_existing_uids_elem.
  - intros L event Hsub Hin. apply step_duplicate. apply Hsub. exact Hin.
  - intros done x Hx. apply run_existing_mono. exact Hx.
  - intros body Hin.
    apply (run_sent_outside Srv import_ false (existing_uids L0) events L0);
      [auto | intros b [] | exact Hin].
  - pose proof (run_skipped_count Srv import_ false (existing_uids L0) events L0
                  (fun x Hx => Hx)) as Hc.
    unfold r, import_events. cbn [fst loop_stats skipped].
    fold L0. change (l_skipped L0) with 0 in Hc. lia.
  - reflexivity.
Qed.

Lemma existing_uids_prefetched_witness :
  let e := sample_event "abc" in
  let r := import_events Scripted scripted_import scripted_list stats0
             (abc_listing, []) [e] true false in
  "abc" ∈ existing_uids
            (loop_start Scripted scripted_list stats0 (abc_listing, []) true false)
  /\ 1 <= skipped (fst r)
  /\ sent (snd r) = [].
Proof.
  intros e r.
  destruct (existing_uids_prefetched Scripted scripted_import scripted_list
              stats0 (abc_listing, []) [e])
    as (_ & Hin & _ & _ & _ & Hcount & _).
  split; [|split].
  - apply Hin. exists (mkRemoteEvent (Some "abc") None).
    split; [left; reflexivity|]. split; [discriminate | left; reflexivity].
  - exact Hcount.
  - reflexivity.
Defined.

(** C9 as stated fails: in a dry run with skip_duplicates on, the set is
    not filled from the destination, and an event the destination already
    holds is counted as an import, not as a skipped duplicate. *)
Lemma prefetch_as_stated_fails :
  let e := sample_event "abc" in
  let r := import_events Scripted scripted_import scripted_list stats0
             (abc_listing, []) [e] true true in
  "abc" ∈ _get_existing_uids abc_listing
  /\ existing_uids
       (loop_start Scripted scripted_list stats0 (abc_listing, []) true true) = ∅
  /\ skipped (fst r) = 0
  /\ imported (fst r) = 1.
Proof.
  intros e r. split; [|split; [|split]].
  - apply (bool_decide_unpack _). vm_compute. reflexivity.
  - reflexivity.
  - reflexivity.
  - reflexivity.
Qed.

(** ** Where a translation ends *)

Lemma attendee_loop_stats (attendees : list AddrProp) :
  forall st,
    snd (attendee_loop st attendees)
    = mkStats (total_events st) (imported st) (skipped st) (errors st)
        (attendees_imported st
         + Z.of_nat (length (fst (attendee_loop st attendees))))
        (imported_without_attendees st).
Proof.
  induction attendees as [|a rest IH]; intros st; simpl.
  - destruct st. simpl. f_equal. lia.
  - destruct (convert_attendee a); [|apply IH].
    specialize (IH (mkStats (total_events st) (imported st) (skipped st)
                      (errors st) (attendees_imported st + 1)
                      (imported_without_attendees st))).
    destruct (attendee_loop _ rest) as [l st2]. simpl in IH |- *.
    rewrite IH. f_equal. lia.
Qed.

Lemma attendee_loop_events (attendees : list AddrProp) :
  forall st, fst (attendee_loop st attendees) = omap convert_attendee attendees.
Proof.
  induction attendees as [|a rest IH]; intros st; simpl; [reflexivity|].
  destruct (convert_attendee a) as [g|]; [|apply IH].
  specialize (IH (mkStats (total_events st) (imported st) (skipped st)
                    (errors st) (attendees_imported st + 1)
                    (imported_without_attendees st))).
  destruct (attendee_loop _ rest) as [l st2]. simpl in IH |- *.
  rewrite IH. reflexivity.
Qed.

(** The statistics after the attendee loop differ from those before by
    the attendee counter only. *)
Lemma after_attendees_stats (st : Stats) (include_attendees : bool) (vevent : VEvent) :
  let st' := after_attendees st include_attendees vevent in
  attendees_imported st'
  = attendees_imported st
    + (if include_attendees
       then Z.of_nat (length (omap convert_attendee (attendee vevent))) else 0)
  /\ total_events st' = total_events st
  /\ imported st' = imported st
  /\ skipped st' = skipped st
  /\ errors st' = errors st
  /\ imported_without_attendees st' = imported_without_attendees st.
Proof.
  unfold after_attendees. destruct include_attendees; cbv zeta.
  - rewrite attendee_loop_stats, attendee_loop_events. cbn. auto 7.
  - repeat apply conj; try reflexivity. lia.
Qed.

Lemma dt_add_raises (v : DtValue) (delta : Z) (e : Exn) :
  dt_add v delta = inl e -> e = OverflowError.
Proof.
  unfold dt_add, date_add, datetime_add.
  destruct v as [o | s tz]; destruct (_ && _); intros H; inversion H; reflexivity.
Qed.

Section Outcomes.

Variable pytz_known : string -> bool.
Variable to_ical : VEvent -> string.
Variable md5_hexdigest : string -> string.

Local Abbreviation convert :=
  (_convert_vevent_to_google_event pytz_known to_ical md5_hexdigest).

(** Every way a translation ends, with the statistics it leaves: no
    start; an end out of range; a repeated rule; a sequence that cannot be
    read, after the attendee loop; an event. *)
Lemma convert_cases st vevent calendar_tz include_attendees :
  match dtstart vevent with
  | None => convert st vevent calendar_tz include_attendees = (ReturnsNone, st)
  | Some _ =>
      if negb (end_in_range vevent)
      then convert st vevent calendar_tz include_attendees
           = (Raises OverflowError, st)
      else if rule_repeated vevent
      then convert st vevent calendar_tz include_attendees
           = (Raises AttributeError, st)
      else
        match sequence_unreadable vevent with
        | Some e =>
            convert st vevent calendar_tz include_attendees
            = (Raises e, after_attendees st include_attendees vevent)
        | None =>
            exists event,
              convert st vevent calendar_tz include_attendees
              = (ReturnsEvent event, after_attendees st include_attendees vevent)
        end
  end.
Proof.
  unfold _convert_vevent_to_google_event, end_in_range, after_attendees.
  destruct (dtstart vevent) as [start|]; [|reflexivity].
  unfold event_end, end_delta.
  assert (Hend :
    match dtend vevent with
    | Some e => inr (dt e, _get_timezone pytz_known e calendar_tz)
    | None =>
        match dt_add (dt start)
                (match duration vevent with
                 | Some d => d
                 | None => if is_plain_date (dt start) then 86400 else 3600
                 end) with
        | inr end_dt => inr (end_dt, _get_timezone pytz_known start calendar_tz)
        | inl e => inl e
        end
    end
    = match dtend vevent with
      | Some e => inr (dt e, _get_timezone pytz_known e calendar_tz)
      | None =>
          match dt_add (dt start)
                  (match duration vevent with
                   | Some d => d
                   | None => if is_plain_date (dt start) then 86400 else 3600
                   end) with
          | inr end_dt => inr (end_dt, _get_timezone pytz_known start calendar_tz)
          | inl _ => inl OverflowError
          end
      end).
  { destruct (dtend vevent); [reflexivity|].
    destruct (dt_add _ _) as [e|] eqn:E; [|reflexivity].
    apply dt_add_raises in E. subst. reflexivity. }
  rewrite Hend. clear Hend.
  destruct (dtend vevent) as [e|];
    [|destruct (dt_add _ _) as [e|end_dt]; [reflexivity|]];
    cbn [negb];
    unfold event_recurrence, rule_repeated, event_sequence, sequence_unreadable;
    destruct (rrule vevent) as [[r|[|r rs]]|];
    try (destruct (is_plain_date (dt start)); reflexivity);
    try destruct (PyStr.nonempty r);
    destruct (is_plain_date (dt start));
    destruct include_attendees;
    try destruct (attendee_loop st (attendee vevent)) as [l st2];
    cbn [snd];
    destruct (sequence vevent) as [[n|text|[|n ns]]|];
    try destruct (n =? 0); try destruct (PyStr.nonempty text);
    first [reflexivity | eexists; reflexivity].
Qed.

End Outcomes.

(** ** Records without a start, and records that raise *)




(** ** The attendee statistic *)




(** * Further properties of the translator *)

Section TranslatorMore.

Variable pytz_known : string -> bool.
Variable to_ical : VEvent -> string.
Variable md5_hexdigest : string -> string.

(** The remaining fields of a returned event. *)
Lemma convert_returns_fields st vevent calendar_tz include_attendees event st' :
  _convert_vevent_to_google_event pytz_known to_ical md5_hexdigest
    st vevent calendar_tz include_attendees = (ReturnsEvent event, st') ->
  g_description event
  = (if truthy (description vevent) then description vevent else None)
  /\ g_location event = (if truthy (location vevent) then location vevent else None)
  /\ event_recurrence vevent = inr (g_recurrence event)
  /\ g_status event = event_status vevent
  /\ g_transparency event = event_transparency vevent
  /\ g_visibility event = event_visibility vevent
  /\ g_organizer event = event_organizer vevent
  /\ event_sequence vevent = inr (g_sequence event).
Proof.
  unfold _convert_vevent_to_google_event. intros H.
  destruct (dtstart vevent) as [start|]; [|discriminate].
  destruct (event_end _ _ _ _ _) as [e|[end_dt end_tz]]; [discriminate|].
  destruct (event_recurrence vevent) as [e|recurrence];
    [destruct (is_plain_date (dt start)); discriminate|].
  destruct (is_plain_date (dt start));
    destruct include_attendees;
    try destruct (attendee_loop st (attendee vevent)) as [l st2];
    (destruct (event_sequence vevent) as [e|sequence_number]; [discriminate|]);
    injection H as <- <-; cbn; repeat apply conj; reflexivity.
Qed.

End TranslatorMore.

Lemma truthy_kept_nonempty (o : option string) :
  (if truthy o then o else None) <> Some "".
Proof. destruct o as [[|c s]|]; discriminate. Qed.

Lemma unique_loop_head (r : Reminder) (rs : list Reminder) :
  exists u, unique_loop [] (r :: rs) = r :: u.
Proof. simpl. eauto. Qed.

Lemma event_reminders_nonempty (vevent : VEvent) :
  event_reminders vevent <> Some [].
Proof.
  unfold event_reminders.
  destruct (collect_reminders (alarms vevent)) as [|r rs]; [discriminate|].
  destruct (unique_loop_head r rs) as [u ->]. discriminate.
Qed.

(** X1: a translated event always has a non-empty iCalUID, so a
    successful submission always records it in the duplicate set; and no
    optional field is present with an empty value: description, location
    and provenance are never the empty text, attendees, reminders and
    recurrence never an empty list, the sequence never 0. *)
Theorem translated_event_wellformed pytz_known to_ical md5_hexdigest
    st vevent calendar_tz include_attendees event st' :
  _convert_vevent_to_google_event pytz_known to_ical md5_hexdigest
    st vevent calendar_tz include_attendees = (ReturnsEvent event, st') ->
  iCalUID event <> ""
  /\ (forall uids : gset string, mark uids (iCalUID event) = uids ∪ {[ iCalUID event ]})
  /\ g_description event <> Some ""
  /\ g_location event <> Some ""
  /\ outlookUID event <> Some ""
  /\ g_attendees event <> Some []
  /\ g_reminders event <> Some []
  /\ g_recurrence event <> Some []
  /\ g_sequence event <> Some 0.
Proof.
  intros H.
  pose proof (convert_returns_fields _ _ _ _ _ _ _ _ _ H)
    as (Hd & Hl & Hrec & _ & _ & _ & _ & Hseq).
  apply convert_returns_event in H
    as (start & end_dt & end_tz & _ & _ & Hid & _ & _ & _ & Hrem & Hprov & Hatt & _).
  assert (Hne : iCalUID event <> "") by (rewrite Hid; apply event_uid_nonempty).
  repeat apply conj.
  - exact Hne.
  - intros uids. unfold mark. apply nonempty_true in Hne. rewrite Hne. reflexivity.
  - rewrite Hd. apply truthy_kept_nonempty.
  - rewrite Hl. apply truthy_kept_nonempty.
  - rewrite Hprov. apply truthy_kept_nonempty.
  - rewrite Hatt. destruct (if include_attendees then _ else _); discriminate.
  - rewrite Hrem. apply event_reminders_nonempty.
  - intros Hempty. rewrite Hempty in Hrec. unfold event_recurrence in Hrec.
    destruct (rrule vevent) as [[r|[|r rs]]|]; try discriminate.
    destruct (PyStr.nonempty r); discriminate.
  - intros Hzero. rewrite Hzero in Hseq. unfold event_sequence in Hseq.
    destruct (sequence vevent) as [[n|text|[|n ns]]|]; try discriminate.
    + destruct (Z.eqb_spec n 0); [discriminate|]. injection Hseq as ->. congruence.
    + destruct (PyStr.nonempty text); discriminate.
Qed.

Lemma translated_event_wellformed_witness :
  exists event st',
    _convert_vevent_to_google_event no_pytz sample_to_ical sample_md5
      stats0 empty_uid_vevent "UTC" true = (ReturnsEvent event, st')
    /\ iCalUID event <> "" /\ outlookUID event <> Some "".
Proof.
  eexists. eexists. split; [reflexivity|].
  destruct (translated_event_wellformed no_pytz sample_to_ical sample_md5
              stats0 empty_uid_vevent "UTC" true _ _ eq_refl)
    as (Hid & _ & _ & _ & Hprov & _).
  split; [exact Hid | exact Hprov].
Defined.

(** * Further properties of the timezone normaliser *)

Lemma dict_get_target (table : list (string * string)) (k v : string) :
  dict_get table k = Some v -> In v (map snd table).
Proof.
  induction table as [|[k' v'] rest IH]; simpl; [discriminate|].
  destruct (String.eqb k k'); [intros H; injection H as ->; auto | auto].
Qed.

Lemma partial_scan_target (table : list (string * string)) (tz_str : string) :
  partial_scan table tz_str = "UTC" \/ In (partial_scan table tz_str) (map snd table).
Proof.
  induction table as [|[k v] rest IH]; simpl; [auto|].
  destruct (partial_match tz_str k); [auto | destruct IH; auto].
Qed.

Lemma TIMEZONE_MAPPINGS_targets_nonempty :
  Forall (fun v => v <> "") (map snd TIMEZONE_MAPPINGS).
Proof. apply (bool_decide_unpack _). vm_compute. reflexivity. Qed.

Lemma UTC_is_target : In "UTC" (map snd TIMEZONE_MAPPINGS).
Proof. apply list_elem_of_In. apply (bool_decide_unpack _). vm_compute. reflexivity. Qed.

Lemma normalize_timezone_target (known : string -> bool) (raw : string) :
  (normalize_timezone known raw = raw /\ known raw = true /\ raw <> "")
  \/ In (normalize_timezone known raw) (map snd TIMEZONE_MAPPINGS).
Proof.
  unfold normalize_timezone.
  destruct (PyStr.nonempty raw) eqn:Hne; cbn [negb].
  - apply nonempty_true in Hne.
    destruct (known raw) eqn:Hk; [left; auto|]. right.
    destruct (dict_get TIMEZONE_MAPPINGS raw) as [v|] eqn:Hget.
    + eapply dict_get_target. exact Hget.
    + destruct (partial_scan_target TIMEZONE_MAPPINGS raw) as [-> | H];
        [apply UTC_is_target | exact H].
  - right. apply UTC_is_target.
Qed.

Lemma normalize_timezone_nonempty (known : string -> bool) (raw : string) :
  normalize_timezone known raw <> "".
Proof.
  destruct (normalize_timezone_target known raw) as [(-> & _ & Hne) | Hin];
    [exact Hne|].
  pose proof TIMEZONE_MAPPINGS_targets_nonempty as Hall.
  rewrite Forall_forall in Hall. apply Hall. apply list_elem_of_In. exact Hin.
Qed.

(** X2: whatever the input and the timezone database, the result of
    [normalize_timezone] is either the input itself, validated by the
    database, or one of the targets of the table; it is never empty. *)
Theorem normalize_timezone_range (known : string -> bool) (raw : string) :
  ((normalize_timezone known raw = raw /\ known raw = true /\ raw <> "")
   \/ In (normalize_timezone known raw) (map snd TIMEZONE_MAPPINGS))
  /\ normalize_timezone known raw <> "".
Proof.
  split; [apply normalize_timezone_target | apply normalize_timezone_nonempty].
Qed.

(** The scan looks at the input through [lower] only. *)
Lemma partial_scan_lower (table : list (string * string)) (s s' : string) :
  PyStr.lower s = PyStr.lower s' -> partial_scan table s = partial_scan table s'.
Proof.
  intros H. induction table as [|[k v] rest IH]; simpl; [reflexivity|].
  unfold partial_match. rewrite H, IH. reflexivity.
Qed.

Lemma TIMEZONE_MAPPINGS_lower_keys :
  forall k1 v1 k2 v2,
    In (k1, v1) TIMEZONE_MAPPINGS -> In (k2, v2) TIMEZONE_MAPPINGS ->
    PyStr.lower k1 = PyStr.lower k2 -> k1 = k2.
Proof.
  assert (H : forallb (fun e1 =>
                forallb (fun e2 =>
                  implb (String.eqb (PyStr.lower (fst e1)) (PyStr.lower (fst e2)))
                        (String.eqb (fst e1) (fst e2)))
                  TIMEZONE_MAPPINGS) TIMEZONE_MAPPINGS = true)
    by (vm_compute; reflexivity).
  intros k1 v1 k2 v2 H1 H2 Hl.
  rewrite forallb_forall in H. specialize (H _ H1).
  rewrite forallb_forall in H. specialize (H _ H2).
  cbn [fst] in H. rewrite Hl, String.eqb_refl in H. cbn [implb] in H.
  apply String.eqb_eq. exact H.
Qed.

Lemma TIMEZONE_MAPPINGS_scan_targets :
  forall k v, In (k, v) TIMEZONE_MAPPINGS ->
              partial_scan TIMEZONE_MAPPINGS k = scan_target k v /\ k <> "".
Proof.
  assert (H : forallb (fun e =>
                String.eqb (partial_scan TIMEZONE_MAPPINGS (fst e))
                           (scan_target (fst e) (snd e))
                && PyStr.nonempty (fst e)) TIMEZONE_MAPPINGS = true)
    by (vm_compute; reflexivity).
  intros k v Hin. rewrite forallb_forall in H. specialize (H _ Hin).
  cbn [fst snd] in H. apply andb_true_iff in H as [H1 H2].
  split; [apply String.eqb_eq; exact H1 | apply nonempty_true; exact H2].
Qed.

Lemma lower_empty (s : string) : PyStr.lower s = "" -> s = "".
Proof. destruct s; [reflexivity | discriminate]. Qed.

(** X3: the table is matched whatever the case of the input.  An input
    the database does not know and that spells a table key, case ignored,
    normalises to that key's target when the spelling is exact, and
    otherwise to what the partial scan finds first: the key's own target,
    except for the four keys that contain an earlier key ("US Mountain
    Standard Time", "AUS Eastern Standard Time", "AUS Central Standard
    Time", "SA Pacific Standard Time"), whose other spellings go to the
    earlier key's target. *)
Theorem normalize_timezone_ignores_case (known : string -> bool)
    (raw key value : string) :
  In (key, value) TIMEZONE_MAPPINGS ->
  PyStr.lower raw = PyStr.lower key ->
  known raw = false ->
  normalize_timezone known raw
  = (if String.eqb raw key then value else scan_target key value).
Proof.
  intros Hin Hlower Hk.
  destruct (TIMEZONE_MAPPINGS_scan_targets key value Hin) as [Hscan Hkey].
  assert (Hne : PyStr.nonempty raw = true).
  { apply nonempty_true. intros ->. apply Hkey. apply lower_empty.
    symmetry. exact Hlower. }
  unfold normalize_timezone. rewrite Hne, Hk. cbn [negb].
  destruct (String.eqb_spec raw key) as [-> | Hneq].
  - rewrite (dict_get_In _ _ value TIMEZONE_MAPPINGS_keys_NoDup Hin). reflexivity.
  - rewrite dict_get_None.
    + rewrite (partial_scan_lower _ raw key Hlower). exact Hscan.
    + intros v Hin'. apply Hneq.
      eapply TIMEZONE_MAPPINGS_lower_keys; eauto.
Qed.

Lemma normalize_timezone_ignores_case_witness :
  normalize_timezone no_pytz "pacific standard time" = "America/Los_Angeles"
  /\ normalize_timezone no_pytz "AUS Eastern Standard Time" = "Australia/Sydney"
  /\ normalize_timezone no_pytz "aus eastern standard time" = "America/New_York".
Proof.
  split; [|split].
  - apply (normalize_timezone_ignores_case no_pytz "pacific standard time"
             "Pacific Standard Time" "America/Los_Angeles");
      [apply list_elem_of_In; apply (bool_decide_unpack _); vm_compute; reflexivity
      | reflexivity | reflexivity].
  - apply (normalize_timezone_ignores_case no_pytz "AUS Eastern Standard Time"
             "AUS Eastern Standard Time" "Australia/Sydney");
      [apply list_elem_of_In; apply (bool_decide_unpack _); vm_compute; reflexivity
      | reflexivity | reflexivity].
  - apply (normalize_timezone_ignores_case no_pytz "aus eastern standard time"
             "AUS Eastern Standard Time" "Australia/Sydney");
      [apply list_elem_of_In; apply (bool_decide_unpack _); vm_compute; reflexivity
      | reflexivity | reflexivity].
Defined.

(** * Times and zones of a translated event *)

Lemma _get_timezone_nonempty known (dt_prop : DtProp) (default_tz : string) :
  default_tz <> "" -> _get_timezone known dt_prop default_tz <> "".
Proof.
  intros Hd. unfold _get_timezone.
  destruct (truthy (TZID dt_prop)); [apply normalize_timezone_nonempty|].
  destruct (dt dt_prop) as [o | s [tz_name|]]; try exact Hd.
  destruct (_ && _); [apply normalize_timezone_nonempty | exact Hd].
Qed.

(** X4: the kinds of start and end in a translated event.  An all-day
    start gives two dates and no timezone, whatever the DTEND is (a
    date-time DTEND is cut to its date).  A timed start gives a date-time
    start with a timezone, and an end written under the same key with a
    timezone: the DTEND value as it is, which is a date when DTEND is
    date-only, or without DTEND a date-time computed from the start, in
    the start's zone.  The timezones are not empty when the calendar's is
    not.  The start's zone is the normalised TZID when there is one; a
    start without TZID whose tzinfo is named UTC takes the calendar's
    zone. *)
Theorem start_and_end_kinds pytz_known to_ical md5_hexdigest
    st vevent calendar_tz include_attendees event st' :
  _convert_vevent_to_google_event pytz_known to_ical md5_hexdigest
    st vevent calendar_tz include_attendees = (ReturnsEvent event, st') ->
  exists start,
    dtstart vevent = Some start
    /\ match dt start with
       | PyDate o =>
           g_start event = GDate o
           /\ (exists d, g_end event = GDate d)
           /\ (forall e, dtend vevent = Some e ->
                         g_end event = GDate (date_of (dt e)))
       | PyDateTime s tzinfo =>
           exists start_tz end_dt end_tz,
             g_start event = GDateTime (PyDateTime s tzinfo) start_tz
             /\ g_end event = GDateTime end_dt end_tz
             /\ (forall e, dtend vevent = Some e ->
                   end_dt = dt e
                   /\ end_tz = _get_timezone pytz_known e calendar_tz)
             /\ (dtend vevent = None ->
                 end_tz = start_tz
                 /\ exists s', end_dt = PyDateTime s' tzinfo)
             /\ (calendar_tz <> "" -> start_tz <> "" /\ end_tz <> "")
             /\ (forall tzid, TZID start = Some tzid -> tzid <> "" ->
                              start_tz = normalize_timezone pytz_known tzid)
             /\ (truthy (TZID start) = false -> tzinfo = Some "UTC" ->
                 start_tz = calendar_tz)
       end.
Proof.
  intros H.
  apply convert_returns_event in H
    as (start & end_dt & end_tz & Hstart & Hend & _ & _ & Hgs & Hge & _).
  exists start. split; [exact Hstart|].
  destruct (dt start) as [o | s tzinfo] eqn:Edt; cbn [is_plain_date] in Hgs, Hge.
  - split; [exact Hgs|]. split; [eauto|].
    intros e He. unfold event_end in Hend. rewrite He in Hend.
    injection Hend as <- _. exact Hge.
  - exists (_get_timezone pytz_known start calendar_tz), end_dt, end_tz.
    split; [exact Hgs|]. split; [exact Hge|].
    assert (Hwith : forall e, dtend vevent = Some e ->
                      end_dt = dt e
                      /\ end_tz = _get_timezone pytz_known e calendar_tz).
    { intros e He. unfold event_end in Hend. rewrite He in Hend.
      injection Hend as <- <-. split; reflexivity. }
    assert (Hwithout : dtend vevent = None ->
                       end_tz = _get_timezone pytz_known start calendar_tz
                       /\ exists s', end_dt = PyDateTime s' tzinfo).
    { intros Hno. unfold event_end in Hend. rewrite Hno, Edt in Hend.
      unfold dt_add in Hend.
      destruct (datetime_add s _) as [e|s'']; [discriminate|].
      injection Hend as <- <-. split; [reflexivity | eauto]. }
    repeat match goal with |- _ /\ _ => split end.
    + exact Hwith.
    + exact Hwithout.
    + intros Hc. split; [apply _get_timezone_nonempty; exact Hc|].
      destruct (dtend vevent) as [e|].
      * destruct (Hwith e eq_refl) as [_ ->]. apply _get_timezone_nonempty. exact Hc.
      * destruct (Hwithout eq_refl) as [-> _]. apply _get_timezone_nonempty. exact Hc.
    + intros tzid Htz Hne. unfold _get_timezone. rewrite Htz. cbn [truthy].
      change (default "" (Some tzid)) with tzid.
      apply nonempty_true in Hne. rewrite Hne. reflexivity.
    + intros Htz ->. unfold _get_timezone. rewrite Htz, Edt. reflexivity.
Qed.

Lemma start_and_end_kinds_witness :
  exists event st',
    _convert_vevent_to_google_event no_pytz sample_to_ical sample_md5
      stats0 date_end_vevent "America/Chicago" true = (ReturnsEvent event, st')
    /\ g_end event = GDateTime (PyDate (ymd2ord 2024 3 2)) "America/Chicago".
Proof.
  eexists. eexists. split; [reflexivity|].
  destruct (start_and_end_kinds no_pytz sample_to_ical sample_md5
              stats0 date_end_vevent "America/Chicago" true _ _ eq_refl)
    as (start & Hstart & Hkind).
  injection Hstart as <-. cbn [dt] in Hkind.
  destruct Hkind as (start_tz & end_dt & end_tz & _ & He & Hwith & _).
  destruct (Hwith _ eq_refl) as [-> ->]. exact He.
Defined.

(** * Attendees, organizer and the enumerated fields *)

Lemma convert_attendee_Some (a : AddrProp) (g : GAttendee) :
  convert_attendee a = Some g ->
  att_email g = strip_mailto (addr a)
  /\ acceptable_attendee (att_email g) = true
  /\ In (att_responseStatus g)
        [Some "accepted"; Some "declined"; Some "tentative"; Some "needsAction"].
Proof.
  unfold convert_attendee, acceptable_attendee.
  destruct (PyStr.nonempty (strip_mailto (addr a))) eqn:E1; [|discriminate].
  destruct (PyStr.contains "@" (strip_mailto (addr a))) eqn:E2; [|discriminate].
  cbn [negb orb andb].
  destruct (PyStr.startswith "invalid:" (strip_mailto (addr a))) eqn:E3;
    [discriminate|].
  destruct (PyStr.endswith _ (strip_mailto (addr a))) eqn:E4; [discriminate|].
  intros H. injection H as <-. cbn [att_email att_responseStatus].
  rewrite E1, E2, E3, E4. split; [reflexivity|]. split; [reflexivity|].
  repeat (destruct (String.eqb _ _); [simpl; tauto|]). simpl. tauto.
Qed.

Lemma convert_attendee_None (a : AddrProp) :
  convert_attendee a = None -> acceptable_attendee (strip_mailto (addr a)) = false.
Proof.
  unfold convert_attendee, acceptable_attendee.
  destruct (PyStr.nonempty _); [|reflexivity].
  destruct (PyStr.contains "@" _); [|reflexivity].
  cbn [negb orb andb].
  destruct (PyStr.startswith "invalid:" _); [reflexivity|].
  destruct (PyStr.endswith _ _); [reflexivity | discriminate].
Qed.

Lemma omap_convert_emails (attendees : list AddrProp) :
  map att_email (omap convert_attendee attendees)
  = List.filter acceptable_attendee (map (fun a => strip_mailto (addr a)) attendees).
Proof.
  induction attendees as [|a rest IH]; [reflexivity|].
  cbn -[convert_attendee acceptable_attendee strip_mailto].
  destruct (convert_attendee a) as [g|] eqn:E.
  - apply convert_attendee_Some in E as (He & Hok & _).
    rewrite <- He, Hok. cbn [map]. rewrite <- IH. reflexivity.
  - apply convert_attendee_None in E. rewrite E. exact IH.
Qed.

(** X5: the attendees of a translated event are, in the order of the
    record, exactly those whose address (after removing "mailto:") is not
    empty, contains "@", does not start with "invalid:" and does not end
    with "@resource.calendar.google.com"; each has one of the four
    response states.  Without include_attendees the event has no attendees
    and the statistics are untouched. *)
Theorem attendees_validated pytz_known to_ical md5_hexdigest
    st vevent calendar_tz include_attendees event st' :
  _convert_vevent_to_google_event pytz_known to_ical md5_hexdigest
    st vevent calendar_tz include_attendees = (ReturnsEvent event, st') ->
  (include_attendees = true ->
   map att_email (default [] (g_attendees event))
   = List.filter acceptable_attendee
       (map (fun a => strip_mailto (addr a)) (attendee vevent)))
  /\ (include_attendees = false -> g_attendees event = None /\ st' = st)
  /\ (forall g, In g (default [] (g_attendees event)) ->
        acceptable_attendee (att_email g) = true
        /\ PyStr.startswith "invalid:" (att_email g) = false
        /\ In (att_responseStatus g)
              [Some "accepted"; Some "declined"; Some "tentative";
               Some "needsAction"]).
Proof.
  intros H.
  apply convert_returns_event in H
    as (start & end_dt & end_tz & _ & _ & _ & _ & _ & _ & _ & _ & Hatt & Hst).
  assert (Hlist : default [] (g_attendees event)
                  = if include_attendees
                    then omap convert_attendee (attendee vevent) else []).
  { rewrite Hatt. destruct include_attendees.
    - rewrite attendee_loop_events.
      destruct (omap convert_attendee (attendee vevent)); reflexivity.
    - reflexivity. }
  repeat apply conj.
  - intros ->. rewrite Hlist. apply omap_convert_emails.
  - intros ->. rewrite Hatt, Hst. split; reflexivity.
  - intros g Hin. rewrite Hlist in Hin.
    destruct include_attendees; [|destruct Hin].
    apply list_elem_of_In in Hin.
    apply list_elem_of_omap in Hin as (a & _ & Ha).
    apply convert_attendee_Some in Ha as (_ & Hok & Hrs).
    split; [exact Hok|]. split; [|exact Hrs].
    unfold acceptable_attendee in Hok.
    apply andb_true_iff in Hok as [Hok _].
    apply andb_true_iff in Hok as [_ Hinv].
    destruct (PyStr.startswith _ _); [discriminate | reflexivity].
Qed.

Lemma attendees_validated_witness :
  exists event st',
    _convert_vevent_to_google_event no_pytz sample_to_ical sample_md5
      stats0 invalid_people_vevent "UTC" true = (ReturnsEvent event, st')
    /\ map att_email (default [] (g_attendees event)) = ["ann@example.com"].
Proof.
  eexists. eexists. split; [reflexivity|].
  destruct (attendees_validated no_pytz sample_to_ical sample_md5
              stats0 invalid_people_vevent "UTC" true _ _ eq_refl)
    as (Hlist & _).
  rewrite (Hlist eq_refl). reflexivity.
Defined.

(** X6: the organizer of a translated event, when there is one, is the
    record's organizer address without "mailto:", contains "@" and does
    not start with "invalid:"; an organizer that fails this is left out.
    The organizer does not depend on include_attendees. *)
Theorem organizer_validated pytz_known to_ical md5_hexdigest
    st vevent calendar_tz include_attendees event st' :
  _convert_vevent_to_google_event pytz_known to_ical md5_hexdigest
    st vevent calendar_tz include_attendees = (ReturnsEvent event, st') ->
  (forall o, g_organizer event = Some o ->
     exists src,
       organizer vevent = Some src
       /\ org_email o = strip_mailto (addr src)
       /\ PyStr.contains "@" (org_email o) = true
       /\ PyStr.startswith "invalid:" (org_email o) = false)
  /\ (forall src, organizer vevent = Some src ->
        PyStr.contains "@" (strip_mailto (addr src)) = false
        \/ PyStr.startswith "invalid:" (strip_mailto (addr src)) = true ->
        g_organizer event = None)
  /\ (forall st2 include2 event2 st2',
        _convert_vevent_to_google_event pytz_known to_ical md5_hexdigest
          st2 vevent calendar_tz include2 = (ReturnsEvent event2, st2') ->
        g_organizer event2 = g_organizer event).
Proof.
  intros H.
  pose proof (convert_returns_fields _ _ _ _ _ _ _ _ _ H)
    as (_ & _ & _ & _ & _ & _ & Horg & _).
  repeat apply conj.
  - intros o Ho. rewrite Horg in Ho. unfold event_organizer in Ho.
    destruct (organizer vevent) as [src|]; [|discriminate].
    exists src. split; [reflexivity|].
    destruct (PyStr.nonempty (addr src)); [|discriminate].
    destruct (PyStr.nonempty (strip_mailto (addr src))); [|discriminate].
    destruct (PyStr.contains "@" _) eqn:Eat; [|discriminate].
    destruct (PyStr.startswith "invalid:" _) eqn:Einv; [discriminate|].
    cbn [andb negb] in Ho. injection Ho as <-. cbn [org_email]. auto.
  - intros src Hsrc Hbad. rewrite Horg. unfold event_organizer. rewrite Hsrc.
    destruct (PyStr.nonempty (addr src)); [|reflexivity].
    destruct (PyStr.nonempty (strip_mailto (addr src))); [|reflexivity].
    destruct Hbad as [-> | ->]; [reflexivity|].
    destruct (PyStr.contains "@" _); reflexivity.
  - intros st2 include2 event2 st2' H2.
    pose proof (convert_returns_fields _ _ _ _ _ _ _ _ _ H2)
      as (_ & _ & _ & _ & _ & _ & Horg2 & _).
    rewrite Horg, Horg2. reflexivity.
Qed.

Lemma organizer_validated_witness :
  exists event st',
    _convert_vevent_to_google_event no_pytz sample_to_ical sample_md5
      stats0 invalid_people_vevent "UTC" true = (ReturnsEvent event, st')
    /\ g_organizer event = None.
Proof.
  eexists. eexists. split; [reflexivity|].
  destruct (organizer_validated no_pytz sample_to_ical sample_md5
              stats0 invalid_people_vevent "UTC" true _ _ eq_refl)
    as (_ & Hbad & _).
  eapply Hbad; [reflexivity|]. left. reflexivity.
Defined.

(** X7: status, transparency and visibility of a translated event only
    take the values the destination knows: each is absent exactly when
    the record's property is missing or empty, and otherwise one of
    cancelled, tentative, confirmed; transparent, opaque; private,
    confidential, default.  The record's text is compared whatever its
    case, and anything unrecognised falls to confirmed, opaque, default. *)
Theorem enumerated_fields pytz_known to_ical md5_hexdigest
    st vevent calendar_tz include_attendees event st' :
  _convert_vevent_to_google_event pytz_known to_ical md5_hexdigest
    st vevent calendar_tz include_attendees = (ReturnsEvent event, st') ->
  In (g_status event)
     [None; Some "cancelled"; Some "tentative"; Some "confirmed"]
  /\ In (g_transparency event) [None; Some "transparent"; Some "opaque"]
  /\ In (g_visibility event)
        [None; Some "private"; Some "confidential"; Some "default"]
  /\ (g_status event = None <-> truthy (status vevent) = false)
  /\ (g_transparency event = None <-> truthy (transp vevent) = false)
  /\ (g_visibility event = None <-> truthy (class vevent) = false)
  /\ (forall raw, status vevent = Some raw -> raw <> "" ->
        (PyStr.upper raw = "CANCELLED" <-> g_status event = Some "cancelled")
        /\ (PyStr.upper raw = "TENTATIVE" <-> g_status event = Some "tentative"))
  /\ (forall raw, transp vevent = Some raw -> raw <> "" ->
        (PyStr.upper raw = "TRANSPARENT"
         <-> g_transparency event = Some "transparent"))
  /\ (forall raw, class vevent = Some raw -> raw <> "" ->
        (PyStr.upper raw = "PRIVATE" <-> g_visibility event = Some "private")
        /\ (PyStr.upper raw = "CONFIDENTIAL"
            <-> g_visibility event = Some "confidential")).
Proof.
  intros H.
  pose proof (convert_returns_fields _ _ _ _ _ _ _ _ _ H)
    as (_ & _ & _ & Hs & Ht & Hv & _).
  rewrite Hs, Ht, Hv.
  unfold event_status, event_transparency, event_visibility.
  repeat match goal with |- _ /\ _ => split end.
  - destruct (truthy (status vevent)); [|simpl; tauto].
    repeat (destruct (String.eqb _ _); [simpl; tauto|]). simpl; tauto.
  - destruct (truthy (transp vevent)); [|simpl; tauto].
    destruct (String.eqb _ _); simpl; tauto.
  - destruct (truthy (class vevent)); [|simpl; tauto].
    repeat (destruct (String.eqb _ _); [simpl; tauto|]). simpl; tauto.
  - destruct (truthy (status vevent)); split; congruence.
  - destruct (truthy (transp vevent)); split; congruence.
  - destruct (truthy (class vevent)); split; congruence.
  - intros raw -> Hne. apply nonempty_true in Hne. cbn [truthy].
    change (default "" (Some raw)) with raw. rewrite Hne.
    destruct (String.eqb_spec (PyStr.upper raw) "CANCELLED") as [-> | H1].
    + split; split; intros X; cbn in *;
      first [reflexivity | discriminate X | congruence].
    + destruct (String.eqb_spec (PyStr.upper raw) "TENTATIVE") as [-> | H2];
        split; split; intros X; cbn in *;
        first [reflexivity | discriminate X | congruence].
  - intros raw -> Hne. apply nonempty_true in Hne. cbn [truthy].
    change (default "" (Some raw)) with raw. rewrite Hne.
    destruct (String.eqb_spec (PyStr.upper raw) "TRANSPARENT") as [-> | H1];
      split; intros X; cbn in *;
      first [reflexivity | discriminate X | congruence].
  - intros raw -> Hne. apply nonempty_true in Hne. cbn [truthy].
    change (default "" (Some raw)) with raw. rewrite Hne.
    destruct (String.eqb_spec (PyStr.upper raw) "PRIVATE") as [-> | H1].
    + split; split; intros X; cbn in *;
      first [reflexivity | discriminate X | congruence].
    + destruct (String.eqb_spec (PyStr.upper raw) "CONFIDENTIAL") as [-> | H2];
        split; split; intros X; cbn in *;
        first [reflexivity | discriminate X | congruence].
Qed.

Lemma enumerated_fields_witness :
  exists event st',
    _convert_vevent_to_google_event no_pytz sample_to_ical sample_md5
      stats0 invalid_people_vevent "UTC" true = (ReturnsEvent event, st')
    /\ g_status event = Some "tentative"
    /\ g_visibility event = Some "private".
Proof.
  eexists. eexists. split; [reflexivity|].
  destruct (enumerated_fields no_pytz sample_to_ical sample_md5
              stats0 invalid_people_vevent "UTC" true _ _ eq_refl)
    as (_ & _ & _ & _ & _ & _ & Hst & _ & Hvis).
  split.
  - apply (Hst "Tentative"); [reflexivity | discriminate | reflexivity].
  - apply (Hvis "private"); [reflexivity | discriminate | reflexivity].
Defined.

(** * Reading a calendar *)

Section ParserFacts.

Variable pytz_known : string -> bool.
Variable to_ical : VEvent -> string.
Variable md5_hexdigest : string -> string.

Local Abbreviation convert :=
  (_convert_vevent_to_google_event pytz_known to_ical md5_hexdigest).

(** What one conversion does to the statistics, whatever its outcome. *)
Lemma convert_stats st vevent calendar_tz include_attendees :
  let st1 := snd (convert st vevent calendar_tz include_attendees) in
  attendees_imported st1
  = attendees_imported st + counted_attendees include_attendees vevent
  /\ total_events st1 = total_events st
  /\ imported st1 = imported st
  /\ skipped st1 = skipped st
  /\ errors st1 = errors st
  /\ imported_without_attendees st1 = imported_without_attendees st.
Proof.
  cbv zeta.
  pose proof (convert_cases pytz_known to_ical md5_hexdigest
                st vevent calendar_tz include_attendees) as Hc.
  pose proof (after_attendees_stats st include_attendees vevent) as Hafter.
  cbv zeta in Hafter. unfold counted_attendees.
  assert (Hsame : forall x : Translated,
            convert st vevent calendar_tz include_attendees = (x, st) ->
            (include_attendees && end_in_range vevent
             && negb (rule_repeated vevent) = false) ->
            attendees_imported
              (snd (convert st vevent calendar_tz include_attendees))
            = attendees_imported st
              + (if include_attendees && end_in_range vevent
                    && negb (rule_repeated vevent)
                 then Z.of_nat (length (omap convert_attendee (attendee vevent)))
                 else 0)
            /\ total_events (snd (convert st vevent calendar_tz include_attendees))
               = total_events st
            /\ imported (snd (convert st vevent calendar_tz include_attendees))
               = imported st
            /\ skipped (snd (convert st vevent calendar_tz include_attendees))
               = skipped st
            /\ errors (snd (convert st vevent calendar_tz include_attendees))
               = errors st
            /\ imported_without_attendees
                 (snd (convert st vevent calendar_tz include_attendees))
               = imported_without_attendees st).
  { intros x -> ->. cbn [snd]. repeat apply conj; try reflexivity. lia. }
  destruct (dtstart vevent) as [start|] eqn:Es.
  - destruct (end_in_range vevent); cbn [negb] in Hc.
    + destruct (rule_repeated vevent); cbn [negb].
      * eapply Hsame; [exact Hc | apply andb_false_r].
      * rewrite !andb_true_r.
        destruct (sequence_unreadable vevent) as [e|];
          [|destruct Hc as [event Hc]]; rewrite Hc; cbn [snd]; exact Hafter.
    + eapply Hsame; [exact Hc|]. rewrite andb_false_r. reflexivity.
  - eapply Hsame; [exact Hc|]. unfold end_in_range. rewrite Es.
    rewrite andb_false_r. reflexivity.
Qed.

(** A returned event carries the attendees its record added. *)
Lemma convert_returned st vevent calendar_tz include_attendees event st1 :
  convert st vevent calendar_tz include_attendees = (ReturnsEvent event, st1) ->
  dtstart vevent <> None
  /\ iCalUID event <> ""
  /\ Z.of_nat (length (default [] (g_attendees event)))
     = counted_attendees include_attendees vevent.
Proof.
  intros E.
  pose proof (convert_stats st vevent calendar_tz include_attendees) as (Hs & _).
  cbv zeta in Hs. rewrite E in Hs. cbn [snd] in Hs.
  apply convert_returns_event in E
    as (start & end_dt & end_tz & Hstart & _ & Hid & _ & _ & _ & _ & _ & Hatt & Hst).
  split; [congruence|]. split; [rewrite Hid; apply event_uid_nonempty|].
  assert (Hlen : attendees_imported st1
                 = attendees_imported st
                   + Z.of_nat (length (default [] (g_attendees event)))).
  { rewrite Hatt, Hst. destruct include_attendees.
    - rewrite attendee_loop_stats. cbn [attendees_imported].
      destruct (fst (attendee_loop st (attendee vevent))); reflexivity.
    - simpl. lia. }
  lia.
Qed.

Lemma counted_attendees_nonneg include_attendees vevent :
  0 <= counted_attendees include_attendees vevent.
Proof. unfold counted_attendees. destruct (_ && _); lia. Qed.

Lemma convert_loop_accounting (walk : list Component) calendar_tz include_attendees :
  forall st events st',
    convert_loop pytz_known to_ical md5_hexdigest st walk calendar_tz
      include_attendees = (events, st') ->
    Z.of_nat (length events) + (errors st' - errors st)
    = Z.of_nat (length (with_start walk))
    /\ errors st <= errors st'
    /\ attendees_imported st'
       = attendees_imported st + counted_total include_attendees walk
    /\ attendee_total events <= counted_total include_attendees walk
    /\ total_events st' = total_events st
    /\ imported st' = imported st
    /\ skipped st' = skipped st
    /\ imported_without_attendees st' = imported_without_attendees st
    /\ Forall (fun event => iCalUID event <> "") events.
Proof.
  induction walk as [|c rest IH]; intros st events st' H.
  - injection H as <- <-. cbn. repeat apply conj; try lia; constructor.
  - destruct c as [x|t|vevent|]; cbn [convert_loop with_start counted_total] in *;
      try (apply IH; exact H).
    pose proof (convert_stats st vevent calendar_tz include_attendees)
      as (S1 & S2 & S3 & S4 & S5 & S6).
    pose proof (counted_attendees_nonneg include_attendees vevent) as Hnn.
    pose proof (convert_cases pytz_known to_ical md5_hexdigest
                  st vevent calendar_tz include_attendees) as Hc.
    cbv zeta in S1, S2, S3, S4, S5, S6.
    destruct (convert st vevent calendar_tz include_attendees)
      as [[|event|e] st1] eqn:E; cbn [snd] in *.
    + assert (Hns : dtstart vevent = None).
      { destruct (dtstart vevent) as [start|]; [|reflexivity]. exfalso.
        destruct (negb (end_in_range vevent)); [discriminate|].
        destruct (rule_repeated vevent); [discriminate|].
        destruct (sequence_unreadable vevent) as [e|];
          [discriminate | destruct Hc as [event Hc]; discriminate]. }
      rewrite Hns.
      apply IH in H as (H1 & H2 & H3 & H4 & H5 & H6 & H7 & H8 & H9).
      repeat apply conj; try lia. exact H9.
    + apply convert_returned in E as (Hs & Hid & Hlen).
      destruct (convert_loop _ _ _ st1 rest _ _) as [events2 st2] eqn:E2.
      injection H as <- <-.
      apply IH in E2 as (H1 & H2 & H3 & H4 & H5 & H6 & H7 & H8 & H9).
      destruct (dtstart vevent); [|congruence].
      cbn [length attendee_total] in *.
      repeat apply conj; try lia. constructor; assumption.
    + assert (Hs : dtstart vevent <> None).
      { intros Hns. rewrite Hns in Hc. discriminate. }
      apply IH in H as (H1 & H2 & H3 & H4 & H5 & H6 & H7 & H8 & H9).
      destruct (dtstart vevent); [|congruence].
      cbn [count_error length errors attendees_imported total_events
             imported skipped imported_without_attendees] in *.
      repeat apply conj; try lia. exact H9.
Qed.

Lemma counted_total_off (walk : list Component) : counted_total false walk = 0.
Proof.
  induction walk as [|c rest IH]; [reflexivity|].
  destruct c; cbn [counted_total]; rewrite ?IH; reflexivity.
Qed.

End ParserFacts.



(** * Further properties of the submission loop *)

Ltac import_cases import_ L event dry :=
  unfold import_one; cbv zeta;
  destruct (_ && bool_decide (_ ∈ existing_uids L)) eqn:Edup; cbv iota;
  [| destruct dry eqn:Edry; cbv iota;
     [| destruct (import_ (srv L) event) as [[|status text|] s1] eqn:E1;
        cbv iota beta;
        [| destruct (status =? 429) eqn:E429; cbv iota;
           [ destruct (import_ s1 event) as [[|status2 text2|] s2] eqn:E2;
             cbv iota beta
           | destruct (status =? 409) eqn:E409; cbv iota;
             [| destruct ((status =? 400) && PyStr.contains STRUCTURAL_MARKER text)
                  eqn:E400; cbv iota;
                [ destruct (import_ s1 (without_participants event))
                    as [[|status2 text2|] s2] eqn:E2; cbv iota beta
                | ]]]
         |]]];
  cbn [srv existing_uids l_imported l_skipped l_errors without_att sent].

Section LoopFacts.

Variable Srv : Type.
Variable import_ : Srv -> GEvent -> Response * Srv.

Local Abbreviation step := (import_one Srv import_).
Local Abbreviation run := (run_loop Srv import_).

(** Every iteration counts its event once, and a fallback import is also
    an import. *)
Lemma step_counts_once skip_duplicates dry_run (L : Loop Srv) (event : GEvent) :
  let L' := step skip_duplicates dry_run L event in
  l_imported L' + l_skipped L' + l_errors L'
  = l_imported L + l_skipped L + l_errors L + 1
  /\ 0 <= without_att L' - without_att L <= l_imported L' - l_imported L.
Proof. import_cases import_ L event dry_run; lia. Qed.

Lemma run_counts skip_duplicates dry_run (events : list GEvent) :
  forall L : Loop Srv,
    let L' := run skip_duplicates dry_run L events in
    l_imported L' + l_skipped L' + l_errors L'
    = l_imported L + l_skipped L + l_errors L + Z.of_nat (length events)
    /\ l_imported L <= l_imported L'
    /\ l_skipped L <= l_skipped L'
    /\ l_errors L <= l_errors L'
    /\ 0 <= without_att L' - without_att L <= l_imported L' - l_imported L.
Proof.
  unfold run_loop.
  induction events as [|e events IH]; intros L; cbn [fold_left length].
  - cbv zeta. lia.
  - specialize (IH (step skip_duplicates dry_run L e)). cbv zeta in IH |- *.
    pose proof (step_counts_once skip_duplicates dry_run L e) as Hs.
    pose proof (step_counters Srv import_ skip_duplicates dry_run L e) as Hc.
    cbv zeta in Hs, Hc. lia.
Qed.

(** A dry run touches neither the service nor the set, and counts no
    error. *)
Lemma step_dry skip_duplicates (L : Loop Srv) (event : GEvent) :
  let L' := step skip_duplicates true L event in
  srv L' = srv L /\ sent L' = sent L /\ existing_uids L' = existing_uids L
  /\ l_errors L' = l_errors L /\ without_att L' = without_att L
  /\ (existing_uids L = ∅ ->
      l_imported L' = l_imported L + 1 /\ l_skipped L' = l_skipped L).
Proof.
  unfold import_one. cbv zeta.
  destruct (skip_duplicates && bool_decide (iCalUID event ∈ existing_uids L)) eqn:E;
    cbn [srv existing_uids l_imported l_skipped l_errors without_att sent];
    repeat apply conj; try reflexivity; intros Hempty.
  - apply andb_true_iff in E as [_ E]. apply bool_decide_eq_true in E.
    rewrite Hempty in E. apply not_elem_of_empty in E. contradiction.
  - split; reflexivity.
Qed.

Lemma run_dry skip_duplicates (events : list GEvent) :
  forall L : Loop Srv,
    let L' := run skip_duplicates true L events in
    srv L' = srv L /\ sent L' = sent L /\ existing_uids L' = existing_uids L
    /\ l_errors L' = l_errors L /\ without_att L' = without_att L
    /\ (existing_uids L = ∅ ->
        l_imported L' = l_imported L + Z.of_nat (length events)
        /\ l_skipped L' = l_skipped L).
Proof.
  unfold run_loop.
  induction events as [|e events IH]; intros L; cbn [fold_left length].
  - cbv zeta. repeat apply conj; try reflexivity. intros _. lia.
  - specialize (IH (step skip_duplicates true L e)). cbv zeta in IH |- *.
    destruct IH as (H1 & H2 & H3 & H4 & H5 & H6).
    destruct (step_dry skip_duplicates L e) as (S1 & S2 & S3 & S4 & S5 & S6).
    repeat apply conj; try congruence.
    intros Hempty. specialize (S6 Hempty).
    rewrite S3 in H6. specialize (H6 Hempty). lia.
Qed.

(** What is sent in one iteration: nothing, the event, the event twice,
    or the event and its reduced copy. *)
Lemma step_sent_shape skip_duplicates dry_run (L : Loop Srv) (event : GEvent) :
  exists bodies,
    sent (step skip_duplicates dry_run L event) = (sent L ++ bodies)%list
    /\ (bodies = [] \/ bodies = [event] \/ bodies = [event; event]
        \/ bodies = [event; without_participants event])
    /\ (skip_duplicates = false -> dry_run = false -> bodies <> []).
Proof.
  import_cases import_ L event dry_run;
    try (exists []; rewrite app_nil_r; split; [reflexivity|];
         split; [auto|]; intros -> ?; discriminate);
    eexists; (split; [reflexivity|]); (split; [auto 6|]); discriminate.
Qed.

Lemma run_sent_shape skip_duplicates dry_run (events : list GEvent) :
  forall L : Loop Srv,
    exists bodies,
      sent (run skip_duplicates dry_run L events) = (sent L ++ bodies)%list
      /\ (length bodies <= 2 * length events)%nat
      /\ (forall body, In body bodies ->
            exists event, In event events
                          /\ (body = event \/ body = without_participants event))
      /\ (skip_duplicates = false -> dry_run = false ->
          (length events <= length bodies)%nat
          /\ forall event, In event events -> In event bodies).
Proof.
  unfold run_loop.
  induction events as [|e events IH]; intros L; cbn [fold_left length].
  - exists []. rewrite app_nil_r. split; [reflexivity|]. split; [simpl; lia|].
    split; [intros b []|]. intros _ _. split; [simpl; lia | intros ev []].
  - destruct (IH (step skip_duplicates dry_run L e)) as (bs & Hs & Hlen & Hfrom & Hall).
    destruct (step_sent_shape skip_duplicates dry_run L e) as (b1 & Hb1 & Hshape & Hne).
    exists (b1 ++ bs)%list. rewrite Hs, Hb1, app_assoc.
    split; [reflexivity|].
    assert (Hb1len : (length b1 <= 2)%nat)
      by (destruct Hshape as [-> | [-> | [-> | ->]]]; simpl; lia).
    assert (Hb1from : forall body, In body b1 ->
                        body = e \/ body = without_participants e).
    { intros body Hin.
      destruct Hshape as [-> | [-> | [-> | ->]]]; simpl in Hin; intuition auto. }
    split; [rewrite length_app; lia|]. split.
    + intros body Hin. apply in_app_or in Hin as [Hin | Hin].
      * exists e. split; [left; reflexivity | apply Hb1from; exact Hin].
      * destruct (Hfrom body Hin) as (ev & Hev & Hb). exists ev. split; [right|]; auto.
    + intros Hsd Hdr. destruct (Hall Hsd Hdr) as [Hl Hin]. split.
      * rewrite length_app. specialize (Hne Hsd Hdr).
        destruct b1; [congruence | simpl; lia].
      * intros ev [<- | Hev]; apply in_or_app.
        -- left. specialize (Hne Hsd Hdr).
           destruct Hshape as [-> | [-> | [-> | ->]]]; simpl; auto; congruence.
        -- right. apply Hin. exact Hev.
Qed.

End LoopFacts.

(** X9: a run of [import_events] counts every event of the batch exactly
    once: the total grows by the size of the batch, and so does the sum of
    imported, skipped and errors, none of which decreases.  The
    imported-without-attendees counter grows by no more than the imported
    counter. *)
Theorem import_accounting Srv import_ events_list
    (st : Stats) (s : Srv) (events : list GEvent) (skip_duplicates dry_run : bool) :
  let r := fst (import_events Srv import_ events_list st s events
                  skip_duplicates dry_run) in
  total_events r = total_events st + Z.of_nat (length events)
  /\ (imported r - imported st) + (skipped r - skipped st) + (errors r - errors st)
     = Z.of_nat (length events)
  /\ imported st <= imported r
  /\ skipped st <= skipped r
  /\ errors st <= errors r
  /\ 0 <= imported_without_attendees r - imported_without_attendees st
       <= imported r - imported st.
Proof.
  cbv zeta. unfold import_events. cbn [fst loop_stats total_events imported skipped
    errors imported_without_attendees].
  pose proof (run_counts Srv import_ skip_duplicates dry_run events
                (loop_start Srv events_list st s skip_duplicates dry_run)) as H.
  cbv zeta in H.
  change (l_imported (loop_start Srv events_list st s skip_duplicates dry_run))
    with 0 in H.
  change (l_skipped (loop_start Srv events_list st s skip_duplicates dry_run))
    with 0 in H.
  change (l_errors (loop_start Srv events_list st s skip_duplicates dry_run))
    with 0 in H.
  change (without_att (loop_start Srv events_list st s skip_duplicates dry_run))
    with (imported_without_attendees st) in H.
  lia.
Qed.

(** X10: a dry run never calls the service: nothing is sent, the service
    is left as it was, no error is counted.  As the duplicate set is not
    fetched and nothing is marked, every event of the batch is counted as
    an import and none as skipped, with skip_duplicates on or off and
    even when the batch repeats an identifier. *)
Theorem dry_run_is_inert Srv import_ events_list
    (st : Stats) (s : Srv) (events : list GEvent) (skip_duplicates : bool) :
  let r := import_events Srv import_ events_list st s events skip_duplicates true in
  sent (snd r) = []
  /\ srv (snd r) = s
  /\ existing_uids (snd r) = ∅
  /\ errors (fst r) = errors st
  /\ imported (fst r) = imported st + Z.of_nat (length events)
  /\ skipped (fst r) = skipped st
  /\ imported_without_attendees (fst r) = imported_without_attendees st.
Proof.
  cbv zeta. unfold import_events. cbn [fst snd loop_stats imported skipped errors
    imported_without_attendees].
  pose proof (run_dry Srv import_ skip_duplicates events
                (loop_start Srv events_list st s skip_duplicates true)) as H.
  cbv zeta in H. destruct H as (H1 & H2 & H3 & H4 & H5 & H6).
  assert (Hempty : existing_uids (loop_start Srv events_list st s skip_duplicates true)
                   = ∅).
  { unfold loop_start. cbn [existing_uids]. rewrite andb_false_r. reflexivity. }
  specialize (H6 Hempty). destruct H6 as [H6 H7].
  rewrite H1, H2, H3, H4, H5, H6, H7.
  repeat apply conj; try reflexivity; try exact Hempty; cbn; lia.
Qed.

(** X11: an event is submitted at most twice, and everything submitted
    is an event of the batch or its copy without organizer and attendees.
    With skip_duplicates off (and no dry run) every event of the batch is
    submitted, repeated identifiers included. *)
Theorem submissions_bounded Srv import_ events_list
    (st : Stats) (s : Srv) (events : list GEvent) (skip_duplicates dry_run : bool) :
  let L := snd (import_events Srv import_ events_list st s events
                  skip_duplicates dry_run) in
  (length (sent L) <= 2 * length events)%nat
  /\ (forall body, In body (sent L) ->
        exists event, In event events
                      /\ (body = event \/ body = without_participants event))
  /\ (skip_duplicates = false -> dry_run = false ->
      (length events <= length (sent L))%nat
      /\ forall event, In event events -> In event (sent L)).
Proof.
  cbv zeta. unfold import_events. cbn [snd].
  destruct (run_sent_shape Srv import_ skip_duplicates dry_run events
              (loop_start Srv events_list st s skip_duplicates dry_run))
    as (bodies & Hs & Hlen & Hfrom & Hall).
  rewrite Hs. cbn [loop_start sent app].
  repeat apply conj; auto.
Qed.

(** X12: when a submission fails with HTTP 429, the same event is
    submitted exactly once more.  If the retry succeeds the event is
    counted as imported and its identifier is marked; if the retry fails
    in any way, a second 429 included, the event is counted as an error
    and nothing is marked. *)
Theorem rate_limit_retry Srv import_
    (skip_duplicates : bool) (L : Loop Srv) (event : GEvent)
    (text : string) (s1 : Srv) :
  skip_duplicates && bool_decide (iCalUID event ∈ existing_uids L) = false ->
  import_ (srv L) event = (HttpError 429 text, s1) ->
  let L' := import_one Srv import_ skip_duplicates false L event in
  sent L' = (sent L ++ [event; event])%list
  /\ srv L' = snd (import_ s1 event)
  /\ l_skipped L' = l_skipped L
  /\ without_att L' = without_att L
  /\ (fst (import_ s1 event) = Success ->
      l_imported L' = l_imported L + 1
      /\ l_errors L' = l_errors L
      /\ existing_uids L' = mark (existing_uids L) (iCalUID event))
  /\ (fst (import_ s1 event) <> Success ->
      l_errors L' = l_errors L + 1
      /\ l_imported L' = l_imported L
      /\ existing_uids L' = existing_uids L).
Proof.
  intros Hdup Hfirst L'. unfold L', import_one. cbv zeta.
  rewrite Hdup, Hfirst. cbv iota beta. change (429 =? 429) with true. cbv iota.
  destruct (import_ s1 event) as [[|status2 text2|] s2];
    cbn [fst snd srv existing_uids l_imported l_skipped l_errors without_att sent];
    repeat apply conj; try reflexivity;
    intros H; try discriminate; try (exfalso; apply H; reflexivity);
    repeat apply conj; reflexivity.
Qed.

Lemma rate_limit_retry_witness :
  let e := sample_event "abc" in
  let L := loop_start Scripted scripted_list stats0
             (empty_listing, [HttpError 429 "Rate Limit Exceeded";
                              HttpError 429 "Rate Limit Exceeded"]) true false in
  let L' := import_one Scripted scripted_import true false L e in
  sent L' = [e; e] /\ l_errors L' = 1 /\ l_imported L' = 0.
Proof.
  intros e L L'.
  destruct (rate_limit_retry Scripted scripted_import true L e
              "Rate Limit Exceeded"
              (empty_listing, [HttpError 429 "Rate Limit Exceeded"]))
    as (Hsent & _ & _ & _ & _ & Hfail).
  - reflexivity.
  - reflexivity.
  - destruct Hfail as (He & Hi & _); [discriminate|].
    split; [exact Hsent|]. split; [exact He | exact Hi].
Defined.

(** X13: the outcomes that take a single submission.  A success counts
    an import and marks the identifier.  A conflict (HTTP 409) counts a
    skip and does not mark the identifier.  Any other failure that is
    neither a 429 nor the structural 400 counts an error.  In the last two
    cases the duplicate set is left as it was, so a later event with the
    same identifier is submitted again. *)
Theorem single_submission_outcomes Srv import_
    (skip_duplicates : bool) (L : Loop Srv) (event : GEvent)
    (response : Response) (s1 : Srv) :
  skip_duplicates && bool_decide (iCalUID event ∈ existing_uids L) = false ->
  import_ (srv L) event = (response, s1) ->
  let L' := import_one Srv import_ skip_duplicates false L event in
  (response = Success ->
   sent L' = (sent L ++ [event])%list /\ srv L' = s1
   /\ l_imported L' = l_imported L + 1
   /\ l_skipped L' = l_skipped L /\ l_errors L' = l_errors L
   /\ existing_uids L' = mark (existing_uids L) (iCalUID event))
  /\ (forall text, response = HttpError 409 text ->
      sent L' = (sent L ++ [event])%list /\ srv L' = s1
      /\ l_skipped L' = l_skipped L + 1
      /\ l_imported L' = l_imported L /\ l_errors L' = l_errors L
      /\ existing_uids L' = existing_uids L)
  /\ ((response = OtherException
       \/ exists status text,
            response = HttpError status text
            /\ status <> 429 /\ status <> 409
            /\ (status <> 400 \/ PyStr.contains STRUCTURAL_MARKER text = false)) ->
      sent L' = (sent L ++ [event])%list /\ srv L' = s1
      /\ l_errors L' = l_errors L + 1
      /\ l_imported L' = l_imported L /\ l_skipped L' = l_skipped L
      /\ existing_uids L' = existing_uids L).
Proof.
  intros Hdup Hfirst L'. unfold L', import_one. cbv zeta.
  rewrite Hdup, Hfirst. cbv iota beta.
  repeat apply conj.
  - intros ->. repeat apply conj; reflexivity.
  - intros text ->. change (409 =? 429) with false. change (409 =? 409) with true.
    cbv iota. repeat apply conj; reflexivity.
  - intros [-> | (status & text & -> & H429 & H409 & H400)].
    + repeat apply conj; reflexivity.
    + apply Z.eqb_neq in H429, H409. rewrite H429, H409. cbv iota.
      assert (Hno : (status =? 400) && PyStr.contains STRUCTURAL_MARKER text = false).
      { destruct H400 as [H400 | H400].
        - apply Z.eqb_neq in H400. rewrite H400. reflexivity.
        - rewrite H400. apply andb_false_r. }
      rewrite Hno. repeat apply conj; reflexivity.
Qed.

Lemma single_submission_outcomes_witness :
  let e := sample_event "abc" in
  let r := import_events Scripted scripted_import scripted_list stats0
             (empty_listing, [HttpError 409 "Conflict"; HttpError 403 "Forbidden"])
             [e; e] true false in
  skipped (fst r) = 1 /\ errors (fst r) = 1 /\ imported (fst r) = 0
  /\ sent (snd r) = [e; e].
Proof.
  intros e r.
  pose (L := loop_start Scripted scripted_list stats0
               (empty_listing, [HttpError 409 "Conflict"; HttpError 403 "Forbidden"])
               true false).
  destruct (single_submission_outcomes Scripted scripted_import true L e
              (HttpError 409 "Conflict")
              (empty_listing, [HttpError 403 "Forbidden"]) eq_refl eq_refl)
    as (_ & Hconflict & _).
  destruct (Hconflict "Conflict" eq_refl) as (_ & _ & _ & _ & _ & Hset).
  assert (Hrun : existing_uids (import_one Scripted scripted_import true false L e)
                 = ∅) by exact Hset.
  repeat split; reflexivity.
Defined.

Section SetFacts.

Variable Srv : Type.
Variable import_ : Srv -> GEvent -> Response * Srv.

Local Abbreviation step := (import_one Srv import_).
Local Abbreviation run := (run_loop Srv import_).

(** A batch whose identifiers are all in the set only moves the skipped
    counter. *)
Lemma run_all_known dry_run (events : list GEvent) :
  forall L : Loop Srv,
    (forall event, In event events -> iCalUID event ∈ existing_uids L) ->
    run true dry_run L events
    = mkLoop (srv L) (existing_uids L) (l_imported L)
        (l_skipped L + Z.of_nat (length events))
        (l_errors L) (without_att L) (sent L).
Proof.
  unfold run_loop.
  induction events as [|e events IH]; intros L Hall; cbn [fold_left length].
  - destruct L. cbn. f_equal. lia.
  - rewrite (step_duplicate Srv import_ dry_run L e) by (apply Hall; left; reflexivity).
    rewrite IH.
    + unfold skipped_one. cbn. f_equal. lia.
    + intros ev Hev. cbn. apply Hall. right. exact Hev.
Qed.

(** Where the members of the set come from. *)
Lemma step_existing_from skip_duplicates dry_run (L : Loop Srv) (event : GEvent) :
  forall x, x ∈ existing_uids (step skip_duplicates dry_run L event) ->
            x ∈ existing_uids L \/ (x = iCalUID event /\ x <> "").
Proof.
  intros x. import_cases import_ L event dry_run; intros Hx; auto;
    apply mark_elem in Hx as [Hx | [-> Hne]]; auto.
Qed.

Lemma run_existing_from skip_duplicates dry_run (events : list GEvent) :
  forall (L : Loop Srv) x,
    x ∈ existing_uids (run skip_duplicates dry_run L events) ->
    x ∈ existing_uids L
    \/ (x <> "" /\ exists event, In event events /\ iCalUID event = x).
Proof.
  unfold run_loop.
  induction events as [|e events IH]; intros L x Hx; cbn [fold_left] in Hx; [auto|].
  apply IH in Hx as [Hx | (Hne & ev & Hev & Hid)].
  - apply step_existing_from in Hx as [Hx | [-> Hne]]; [auto|].
    right. split; [exact Hne|]. exists e. split; [left|]; reflexivity.
  - right. split; [exact Hne|]. exists ev. split; [right|]; assumption.
Qed.

End SetFacts.

(** X14: when the destination's listing already knows every identifier
    of the batch, a run with skip_duplicates on and dry_run off submits
    nothing: the service is left alone, every event is counted as skipped,
    none as imported or as an error. *)
Theorem known_batch_is_skipped Srv import_ events_list
    (st : Stats) (s : Srv) (events : list GEvent) :
  (forall event, In event events ->
     exists rec, In rec (fetched (events_list s)) /\ known_as (iCalUID event) rec) ->
  let r := import_events Srv import_ events_list st s events true false in
  sent (snd r) = []
  /\ srv (snd r) = s
  /\ skipped (fst r) = skipped st + Z.of_nat (length events)
  /\ imported (fst r) = imported st
  /\ errors (fst r) = errors st
  /\ existing_uids (snd r) = _get_existing_uids (events_list s).
Proof.
  intros Hknown. cbv zeta. unfold import_events.
  rewrite run_all_known.
  - cbn. repeat apply conj; try reflexivity; lia.
  - intros ev Hev. cbn. apply _get_existing_uids_elem. apply Hknown. exact Hev.
Qed.

Lemma known_batch_is_skipped_witness :
  let e := sample_event "abc" in
  let r := import_events Scripted scripted_import scripted_list stats0
             (abc_listing, []) [e; e] true false in
  sent (snd r) = [] /\ skipped (fst r) = 2 /\ imported (fst r) = 0.
Proof.
  intros e r.
  destruct (known_batch_is_skipped Scripted scripted_import scripted_list
              stats0 (abc_listing, []) [e; e])
    as (Hsent & _ & Hs & Hi & _).
  - intros ev Hev. exists (mkRemoteEvent (Some "abc") None).
    split; [left; reflexivity|]. split.
    + destruct Hev as [<- | [<- | []]]; discriminate.
    + left. destruct Hev as [<- | [<- | []]]; reflexivity.
  - split; [exact Hsent|]. split; [exact Hs | exact Hi].
Defined.

(** X15: the duplicate set at the end of a run holds only non-empty
    identifiers, each either fetched from the destination or belonging to
    an event of the batch; in particular an event without identifier is
    never taken for a duplicate.  The set is not fetched when
    skip_duplicates is off. *)
Theorem duplicate_set_contents Srv import_ events_list
    (st : Stats) (s : Srv) (events : list GEvent) (skip_duplicates dry_run : bool) :
  let L := snd (import_events Srv import_ events_list st s events
                  skip_duplicates dry_run) in
  (forall x, x ∈ existing_uids L ->
     x <> ""
     /\ ((skip_duplicates = true /\ dry_run = false
          /\ x ∈ _get_existing_uids (events_list s))
         \/ exists event, In event events /\ iCalUID event = x))
  /\ ("" ∉ existing_uids L)
  /\ (forall done rest event,
        events = (done ++ event :: rest)%list -> iCalUID event = "" ->
        let before := run_loop Srv import_ skip_duplicates dry_run
                        (loop_start Srv events_list st s skip_duplicates dry_run)
                        done in
        skip_duplicates && bool_decide (iCalUID event ∈ existing_uids before)
        = false).
Proof.
  cbv zeta. unfold import_events. cbn [snd].
  assert (Hstart : forall x,
            x ∈ existing_uids (loop_start Srv events_list st s skip_duplicates dry_run) ->
            x <> "" /\ skip_duplicates = true /\ dry_run = false
            /\ x ∈ _get_existing_uids (events_list s)).
  { intros x. unfold loop_start. cbn [existing_uids].
    destruct skip_duplicates, dry_run; cbn [andb negb]; intros Hx;
      try (apply not_elem_of_empty in Hx; contradiction).
    split; [|auto]. apply _get_existing_uids_elem in Hx as (rec & _ & Hne & _).
    exact Hne. }
  assert (Hall : forall done x,
            x ∈ existing_uids
                  (run_loop Srv import_ skip_duplicates dry_run
                     (loop_start Srv events_list st s skip_duplicates dry_run) done) ->
            x <> "").
  { intros done x Hx. apply run_existing_from in Hx as [Hx | [Hne _]]; [|exact Hne].
    apply Hstart in Hx as [Hne _]. exact Hne. }
  repeat apply conj.
  - intros x Hx. split; [eapply Hall; exact Hx|].
    apply run_existing_from in Hx as [Hx | [_ Hev]]; [|right; exact Hev].
    left. apply Hstart in Hx. tauto.
  - intros Hx. apply (Hall events "" Hx). reflexivity.
  - intros done rest event _ Hid. rewrite Hid.
    rewrite bool_decide_eq_false_2.
    + rewrite andb_false_r. reflexivity.
    + intros Hx. apply (Hall done "" Hx). reflexivity.
Qed.

(** * Filtering, limiting and adding oneself *)

Lemma filter_loop_In (events : list GEvent) (start_date end_date : option Z)
    (event : GEvent) :
  In event (filter_loop events start_date end_date)
  <-> In event events /\ in_window start_date end_date event.
Proof.
  unfold in_window.
  induction events as [|e events IH]; cbn [filter_loop In]; [tauto|].
  assert (Hw : (match start_date with Some s => event_date e <? s | None => false end
                = false
                /\ match end_date with Some x => x <=? event_date e | None => false end
                   = false)
               <-> ((forall s, start_date = Some s -> s <= event_date e)
                    /\ (forall x, end_date = Some x -> event_date e < x))).
  { destruct start_date as [s|], end_date as [x|];
      rewrite ?Z.ltb_ge, ?Z.leb_gt; split.
    all: try (intros [H1 H2]; split; intros ? Heq; inversion Heq; subst; assumption).
    all: try (intros [H1 H2]; split; try reflexivity; auto).
    all: try (intros [H1 H2]; split; intros ? Heq; discriminate). }
  destruct (match start_date with Some s => event_date e <? s | None => false end)
    eqn:E1.
  - rewrite IH. split; [tauto|]. intros [[<- | Hin] Hwin]; [|tauto].
    apply Hw in Hwin as [Hwin _]. discriminate.
  - destruct (match end_date with Some x => x <=? event_date e | None => false end)
      eqn:E2.
    + rewrite IH. split; [tauto|]. intros [[<- | Hin] Hwin]; [|tauto].
      apply Hw in Hwin as [_ Hwin]. discriminate.
    + cbn [In]. rewrite IH. split.
      * intros [<- | H]; [|tauto]. split; [auto|]. apply Hw. auto.
      * tauto.
Qed.

Lemma filter_loop_sublist (events : list GEvent) (start_date end_date : option Z) :
  sublist (filter_loop events start_date end_date) events.
Proof.
  induction events as [|e events IH]; cbn [filter_loop]; [constructor|].
  destruct (match start_date with Some _ => _ | None => _ end);
    [apply sublist_cons; exact IH|].
  destruct (match end_date with Some _ => _ | None => _ end);
    [apply sublist_cons | apply sublist_skip]; exact IH.
Qed.

Lemma filter_loop_all (events : list GEvent) (start_date end_date : option Z) :
  (forall event, In event events -> in_window start_date end_date event) ->
  filter_loop events start_date end_date = events.
Proof.
  induction events as [|e events IH]; intros Hall; cbn [filter_loop]; [reflexivity|].
  destruct (Hall e (or_introl eq_refl)) as [Hs He].
  assert (E1 : match start_date with Some s => event_date e <? s | None => false end
               = false).
  { destruct start_date as [s|]; [|reflexivity]. apply Z.ltb_ge. auto. }
  assert (E2 : match end_date with Some x => x <=? event_date e | None => false end
               = false).
  { destruct end_date as [x|]; [|reflexivity]. apply Z.leb_gt. auto. }
  rewrite E1, E2, IH; [reflexivity|]. intros ev Hev. apply Hall. right. exact Hev.
Qed.

(** X16: [filter_events_by_date] keeps, in their order, exactly the
    events whose start date is on or after the start bound and strictly
    before the end bound (an absent bound does not restrict); without
    bounds it returns the list unchanged; a window whose end is not after
    its start keeps nothing; filtering twice changes nothing more. *)
Theorem filter_events_by_date_window (events : list GEvent)
    (start_date end_date : option Z) :
  let kept := filter_events_by_date events start_date end_date in
  sublist kept events
  /\ (forall event, In event kept
                    <-> In event events /\ in_window start_date end_date event)
  /\ filter_events_by_date events None None = events
  /\ (forall s e, start_date = Some s -> end_date = Some e -> e <= s -> kept = [])
  /\ filter_events_by_date kept start_date end_date = kept.
Proof.
  cbv zeta.
  assert (Hin : forall event,
            In event (filter_events_by_date events start_date end_date)
            <-> In event events /\ in_window start_date end_date event).
  { intros event. unfold filter_events_by_date.
    destruct start_date as [s|], end_date as [e|]; try apply filter_loop_In.
    unfold in_window. split; [|tauto]. intros H. split; [exact H|].
    split; intros ? ?; discriminate. }
  repeat apply conj.
  - unfold filter_events_by_date.
    destruct start_date as [s|], end_date as [e|];
      try apply filter_loop_sublist. reflexivity.
  - exact Hin.
  - reflexivity.
  - intros s e -> -> Hle.
    destruct (filter_events_by_date events (Some s) (Some e)) as [|ev rest] eqn:E;
      [reflexivity|].
    destruct (proj1 (Hin ev) (or_introl eq_refl)) as [_ [H1 H2]].
    specialize (H1 s eq_refl). specialize (H2 e eq_refl). lia.
  - set (kept := filter_events_by_date events start_date end_date) in *.
    unfold filter_events_by_date at 1.
    destruct start_date as [s|] eqn:Es, end_date as [e|] eqn:Ee;
      try (apply filter_loop_all; intros ev Hev; apply Hin in Hev; tauto).
    reflexivity.
Qed.

Lemma filter_events_by_date_window_witness :
  let a := timed_event "a" 2024 1 14 86399 in
  let b := timed_event "b" 2024 1 15 0 in
  let c := timed_event "c" 2024 1 16 0 in
  filter_events_by_date [a; b; c]
    (Some (ymd2ord 2024 1 15)) (Some (ymd2ord 2024 1 16)) = [b]
  /\ filter_events_by_date [a; b; c]
       (Some (ymd2ord 2024 1 16)) (Some (ymd2ord 2024 1 15)) = [].
Proof.
  intros a b c. split; [reflexivity|].
  eapply (filter_events_by_date_window [a; b; c]); [reflexivity | reflexivity|].
  vm_compute. discriminate.
Defined.

(** X17: the limit keeps a prefix of the events.  No limit, or a limit
    of 0, keeps them all; a positive limit keeps the first [n]; a negative
    limit, which the option parser accepts, drops the last [-n] events. *)
Theorem limit_keeps_prefix (limit : option Z) (events : list GEvent) :
  let kept := apply_limit limit events in
  (exists dropped, events = (kept ++ dropped)%list)
  /\ (limit = None \/ limit = Some 0 -> kept = events)
  /\ (forall n, limit = Some n -> 0 < n ->
        kept = firstn (Z.to_nat n) events
        /\ Z.of_nat (length kept) = Z.min n (Z.of_nat (length events)))
  /\ (forall n, limit = Some n -> n < 0 ->
        kept = firstn (length events - Z.to_nat (- n)) events
        /\ Z.of_nat (length kept) = Z.max 0 (Z.of_nat (length events) + n)).
Proof.
  cbv zeta.
  assert (Hpos : forall n, 0 < n ->
            apply_limit (Some n) events = firstn (Z.to_nat n) events).
  { intros n Hn. unfold apply_limit, slice_to.
    destruct (Z.eqb_spec n 0); [lia|]. cbn [negb andb].
    destruct (Z.ltb_spec n (Z.of_nat (length events))).
    - destruct (Z.leb_spec 0 n); [reflexivity | lia].
    - symmetry. apply firstn_all2. lia. }
  assert (Hneg : forall n, n < 0 ->
            apply_limit (Some n) events
            = firstn (length events - Z.to_nat (- n)) events).
  { intros n Hn. unfold apply_limit, slice_to.
    destruct (Z.eqb_spec n 0); [lia|]. cbn [negb andb].
    destruct (Z.ltb_spec n (Z.of_nat (length events))); [|lia].
    destruct (Z.leb_spec 0 n); [lia|]. f_equal. lia. }
  repeat apply conj.
  - destruct limit as [n|]; [|exists []; symmetry; apply app_nil_r].
    destruct (Z.lt_trichotomy n 0) as [Hn | [-> | Hn]].
    + rewrite (Hneg n Hn). eexists. symmetry. apply firstn_skipn.
    + exists []. symmetry. apply app_nil_r.
    + rewrite (Hpos n Hn). eexists. symmetry. apply firstn_skipn.
  - intros [-> | ->]; reflexivity.
  - intros n -> Hn. rewrite (Hpos n Hn). split; [reflexivity|].
    rewrite length_firstn. lia.
  - intros n -> Hn. rewrite (Hneg n Hn). split; [reflexivity|].
    rewrite length_firstn. lia.
Qed.

Lemma limit_keeps_prefix_witness :
  let a := sample_event "a" in
  let b := sample_event "b" in
  let c := sample_event "c" in
  apply_limit (Some 2) [a; b; c] = [a; b]
  /\ apply_limit (Some (-1)) [a; b; c] = [a; b]
  /\ apply_limit (Some 0) [a; b; c] = [a; b; c].
Proof.
  intros a b c.
  destruct (limit_keeps_prefix (Some 2) [a; b; c]) as (_ & _ & Hpos & _).
  destruct (limit_keeps_prefix (Some (-1)) [a; b; c]) as (_ & _ & _ & Hneg).
  destruct (limit_keeps_prefix (Some 0) [a; b; c]) as (_ & Hzero & _).
  split; [|split].
  - apply (Hpos 2); [reflexivity | lia].
  - apply (Hneg (-1)); [reflexivity | lia].
  - apply Hzero. right. reflexivity.
Defined.

Lemma listed_email (add_self : string) (attendees : list GAttendee) :
  existsb (String.eqb (PyStr.lower add_self))
    (map (fun a => PyStr.lower (att_email a)) attendees) = true
  <-> exists a, In a attendees /\ PyStr.lower (att_email a) = PyStr.lower add_self.
Proof.
  rewrite existsb_exists. split.
  - intros (x & Hin & Hx). apply in_map_iff in Hin as (a & <- & Ha).
    apply String.eqb_eq in Hx. eauto.
  - intros (a & Ha & Hx). exists (PyStr.lower (att_email a)). split.
    + apply in_map_iff. eauto.
    + apply String.eqb_eq. symmetry. exact Hx.
Qed.

Lemma add_self_to_lists (address : string) (event : GEvent) :
  exists a, In a (default [] (g_attendees (add_self_to address event)))
            /\ PyStr.lower (att_email a) = PyStr.lower address.
Proof.
  pose proof (listed_email address (default [] (g_attendees event))) as Hl.
  unfold add_self_to.
  destruct (existsb (String.eqb (PyStr.lower address))
              (map (fun a => PyStr.lower (att_email a))
                 (default [] (g_attendees event)))) eqn:E.
  - apply Hl. reflexivity.
  - exists (mkGAttendee address None (Some "accepted") false false).
    cbn [with_attendees g_attendees default]. split; [|reflexivity].
    apply in_or_app. right. left. reflexivity.
Qed.

Lemma add_self_step_on (address : string) (events : list GEvent) :
  address <> "" ->
  add_self_step (Some address) false events = map (add_self_to address) events.
Proof.
  intros Hne. apply nonempty_true in Hne. unfold add_self_step.
  cbn [truthy negb]. rewrite Hne. reflexivity.
Qed.

(** X18: the --add-self pass.  With a non-empty address and without
    --no-attendees the pass rewrites every event of the batch, in order
    and without dropping any, and every event that leaves it lists the
    address among its attendees, case ignored; the same holds of the
    events handed to the importer.  For one event: if it already listed
    the address it is left exactly as it was; otherwise one attendee with
    that address and the response "accepted" is appended after the
    existing ones, and no other field changes.  A second pass changes
    nothing.  The pass is off without an address, with an empty address
    and under --no-attendees. *)
Theorem add_self_listed (address : string) (event : GEvent) :
  let out := add_self_to address event in
  let lists (ev : GEvent) :=
    exists a, In a (default [] (g_attendees ev))
              /\ PyStr.lower (att_email a) = PyStr.lower address in
  lists out
  /\ (lists event -> out = event)
  /\ (~ lists event ->
      g_attendees out
      = Some (default [] (g_attendees event)
                ++ [mkGAttendee address None (Some "accepted") false false])%list)
  /\ without_participants out = without_participants event
  /\ g_organizer out = g_organizer event
  /\ add_self_to address out = out
  /\ (forall events no_att,
        add_self_step None no_att events = events
        /\ add_self_step (Some "") no_att events = events
        /\ add_self_step (Some address) true events = events)
  /\ (address <> "" ->
      forall events,
        add_self_step (Some address) false events
        = map (add_self_to address) events
        /\ length (add_self_step (Some address) false events) = length events
        /\ Forall lists (add_self_step (Some address) false events)
        /\ Forall2 (fun before after =>
                      without_participants after = without_participants before
                      /\ (lists before -> after = before))
             events (add_self_step (Some address) false events))
  /\ (address <> "" ->
      forall args events,
        add_self args = Some address -> no_attendees args = false ->
        Forall lists (prepare_events args events)).
Proof.
  cbv zeta.
  pose proof (listed_email address (default [] (g_attendees event))) as Hl.
  assert (Hoff : forall events no_att,
            add_self_step None no_att events = events
            /\ add_self_step (Some "") no_att events = events
            /\ add_self_step (Some address) true events = events).
  { intros events no_att. unfold add_self_step.
    cbn [truthy PyStr.nonempty andb]. rewrite andb_false_r. auto. }
  assert (Hkeep : forall ev,
            without_participants (add_self_to address ev) = without_participants ev
            /\ ((exists a, In a (default [] (g_attendees ev))
                           /\ PyStr.lower (att_email a) = PyStr.lower address) ->
                add_self_to address ev = ev)).
  { intros ev. unfold add_self_to.
    destruct (existsb (String.eqb (PyStr.lower address))
                (map (fun a => PyStr.lower (att_email a))
                   (default [] (g_attendees ev)))) eqn:E.
    - split; reflexivity.
    - split; [reflexivity|]. intros Hex. apply listed_email in Hex. congruence. }
  assert (Hon : address <> "" ->
      forall events,
        add_self_step (Some address) false events
        = map (add_self_to address) events
        /\ length (add_self_step (Some address) false events) = length events
        /\ Forall (fun ev => exists a, In a (default [] (g_attendees ev))
                     /\ PyStr.lower (att_email a) = PyStr.lower address)
             (add_self_step (Some address) false events)
        /\ Forall2 (fun before after =>
                      without_participants after = without_participants before
                      /\ ((exists a, In a (default [] (g_attendees before))
                             /\ PyStr.lower (att_email a) = PyStr.lower address) ->
                          after = before))
             events (add_self_step (Some address) false events)).
  { intros Hne events. rewrite (add_self_step_on address events Hne).
    split; [reflexivity|]. split; [apply length_map|]. split.
    - induction events as [|ev rest IH]; cbn [map]; constructor.
      + apply add_self_to_lists.
      + exact IH.
    - induction events as [|ev rest IH]; cbn [map]; constructor.
      + apply Hkeep.
      + exact IH. }
  assert (Hprep : address <> "" ->
      forall args events,
        add_self args = Some address -> no_attendees args = false ->
        Forall (fun ev => exists a, In a (default [] (g_attendees ev))
                   /\ PyStr.lower (att_email a) = PyStr.lower address)
          (prepare_events args events)).
  { intros Hne args events Ha Hn. unfold prepare_events. rewrite Ha, Hn.
    apply (Hon Hne). }
  destruct (existsb (String.eqb (PyStr.lower address))
              (map (fun a => PyStr.lower (att_email a))
                 (default [] (g_attendees event)))) eqn:E.
  - assert (Hout : add_self_to address event = event)
      by (unfold add_self_to; rewrite E; reflexivity).
    rewrite !Hout. pose proof (proj1 Hl eq_refl) as Hex.
    repeat apply conj; try reflexivity; auto.
    intros Hno. contradiction.
  - assert (Hout : add_self_to address event
                   = with_attendees event
                       (Some (default [] (g_attendees event)
                                ++ [mkGAttendee address None (Some "accepted")
                                      false false])%list))
      by (unfold add_self_to; rewrite E; reflexivity).
    assert (Hno : ~ exists a, In a (default [] (g_attendees event))
                              /\ PyStr.lower (att_email a) = PyStr.lower address).
    { intros Hex. apply Hl in Hex. congruence. }
    rewrite !Hout.
    repeat apply conj; try reflexivity; auto.
    + exists (mkGAttendee address None (Some "accepted") false false).
      cbn [with_attendees g_attendees default]. split; [|reflexivity].
      apply in_or_app. right. left. reflexivity.
    + intros Hex. contradiction.
    + unfold add_self_to.
      change (default [] (g_attendees (with_attendees event ?x)))
        with (default [] x).
      cbn -[PyStr.lower String.eqb existsb map].
      rewrite List.map_app, existsb_app. cbn [map existsb att_email].
      rewrite String.eqb_refl, orb_true_r. reflexivity.
Qed.

Lemma add_self_listed_witness :
  let e := sample_event "abc" in
  let bare := with_attendees (sample_event "def") None in
  map att_email (default [] (g_attendees (add_self_to "Me@Example.com" e)))
  = ["ann@example.com"; "bob@example.com"; "Me@Example.com"]
  /\ add_self_to "ANN@example.com" e = e
  /\ "ANN@example.com" <> ""
  /\ map (fun ev => map att_email (default [] (g_attendees ev)))
       (add_self_step (Some "ANN@example.com") false [e; bare])
     = [["ann@example.com"; "bob@example.com"]; ["ANN@example.com"]]
  /\ Forall (fun ev => exists a, In a (default [] (g_attendees ev))
               /\ PyStr.lower (att_email a) = PyStr.lower "ANN@example.com")
       (add_self_step (Some "ANN@example.com") false [e; bare]).
Proof.
  intros e bare. split; [reflexivity|].
  destruct (add_self_listed "ANN@example.com" e)
    as (_ & Hsame & _ & _ & _ & _ & _ & Hon & _).
  assert (Hne : "ANN@example.com" <> "") by discriminate.
  split.
  { apply Hsame.
    exists (mkGAttendee "ann@example.com" None (Some "accepted") false false).
    split; [left; reflexivity | reflexivity]. }
  split; [exact Hne|]. split; [reflexivity|].
  destruct (Hon Hne [e; bare]) as (_ & _ & Hall & _). exact Hall.
Defined.

(** * One file, from parsing to importing *)

Lemma convert_loop_no_attendees pytz_known to_ical md5_hexdigest
    (walk : list Component) calendar_tz :
  forall st events st',
    convert_loop pytz_known to_ical md5_hexdigest st walk calendar_tz false
    = (events, st') ->
    Forall (fun event => g_attendees event = None) events.
Proof.
  induction walk as [|c rest IH]; intros st events st' H.
  - injection H as <- _. constructor.
  - destruct c as [x|t|vevent|]; cbn [convert_loop] in H;
      try (eapply IH; exact H).
    destruct (_convert_vevent_to_google_event _ _ _ st vevent calendar_tz false)
      as [[|event|e] st1] eqn:E.
    + eapply IH. exact H.
    + destruct (convert_loop _ _ _ st1 rest _ _) as [events2 st2] eqn:E2.
      injection H as <- _. constructor; [|eapply IH; exact E2].
      apply convert_returns_event in E
        as (start & end_dt & end_tz & _ & _ & _ & _ & _ & _ & _ & _ & Hatt & _).
      exact Hatt.
    + eapply IH. exact H.
Qed.

Lemma apply_limit_In (limit : option Z) (events : list GEvent) (event : GEvent) :
  In event (apply_limit limit events) -> In event events.
Proof.
  unfold apply_limit, slice_to.
  destruct limit as [n|]; [|auto].
  destruct (_ && _); [|auto].
  destruct (0 <=? n); intros Hin; apply list_elem_of_In in Hin;
    apply (subseteq_take _ _) in Hin; apply list_elem_of_In; exact Hin.
Qed.

Lemma prepare_events_no_attendees (args : Args) (events : list GEvent)
    (event : GEvent) :
  no_attendees args = true ->
  In event (prepare_events args events) -> In event events.
Proof.
  intros Hno. unfold prepare_events, add_self_step. rewrite Hno.
  rewrite andb_false_r. intros Hin. apply apply_limit_In in Hin.
  destruct (start_date_arg args) as [s|] eqn:Es,
           (end_date_arg args) as [e|] eqn:Ee; [| | |exact Hin];
    unfold filter_events_by_date in Hin;
    apply filter_loop_In in Hin as [Hin _]; exact Hin.
Qed.

(** X19: under --no-attendees nothing sent to the destination carries an
    attendee, whatever the other options (an --add-self address
    included), and the attendee counter does not move. *)
Theorem no_attendees_sends_none pytz_known to_ical md5_hexdigest
    Srv import_ events_list
    (args : Args) (st : Stats) (default_timezone : string) (s : Srv)
    (cal : option (list Component)) :
  no_attendees args = true ->
  let r := process_file pytz_known to_ical md5_hexdigest Srv import_ events_list
             args st default_timezone s cal in
  (forall body, In body (snd r) -> g_attendees body = None)
  /\ attendees_imported (fst (fst r)) = attendees_imported st.
Proof.
  intros Hno. cbv zeta. unfold process_file, parse_ics_file. rewrite Hno.
  cbn [negb].
  destruct cal as [walk|].
  - destruct (convert_loop _ _ _ st walk _ false) as [events st1] eqn:E.
    pose proof (convert_loop_no_attendees _ _ _ _ _ _ _ _ E) as Hnone.
    pose proof (convert_loop_accounting _ _ _ _ _ _ _ _ _ E)
      as (_ & _ & Hatt & _).
    rewrite counted_total_off in Hatt.
    rewrite Forall_forall in Hnone.
    destruct (prepare_events args events) as [|e0 rest] eqn:Ep.
    + cbn [fst snd]. split; [intros body []|]. lia.
    + rewrite <- Ep. unfold import_events. cbn [fst snd loop_stats attendees_imported].
      split; [|lia].
      intros body Hin.
      destruct (run_sent_shape Srv import_ (negb (no_skip_duplicates args))
                  (dry_run_flag args) (prepare_events args events)
                  (loop_start Srv events_list st1 s
                     (negb (no_skip_duplicates args)) (dry_run_flag args)))
        as (bodies & Hs & _ & Hfrom & _).
      rewrite Hs in Hin. cbn [loop_start sent app] in Hin.
      destruct (Hfrom body Hin) as (ev & Hev & Hb).
      apply (prepare_events_no_attendees args events ev Hno) in Hev.
      apply list_elem_of_In in Hev. apply Hnone in Hev.
      destruct Hb as [-> | ->]; [exact Hev | reflexivity].
  - destruct (prepare_events args []) as [|e0 rest] eqn:Ep.
    + cbn. split; [intros body [] | reflexivity].
    + exfalso. apply (prepare_events_no_attendees args [] e0 Hno).
      rewrite Ep. left. reflexivity.
Qed.

Lemma no_attendees_sends_none_witness :
  let args := mkArgs false true false None None None (Some "me@example.com") in
  let r := process_file no_pytz sample_to_ical sample_md5
             Scripted scripted_import scripted_list
             args stats0 "UTC" (empty_listing, []) (Some sample_calendar) in
  length (snd r) = 1%nat
  /\ (forall body, In body (snd r) -> g_attendees body = None)
  /\ attendees_imported (fst (fst r)) = 0.
Proof.
  intros args r. split; [reflexivity|].
  apply (no_attendees_sends_none no_pytz sample_to_ical sample_md5
           Scripted scripted_import scripted_list
           args stats0 "UTC" (empty_listing, []) (Some sample_calendar)).
  reflexivity.
Defined.



